(** * automatic_annotation.py: extract, annotate, merge

    A shallow embedding of the three stages of [automatic_annotation.py]
    ([extract_from_seurat], [gene_annotation], [i_m_annotating]) together
    with the fragments of the Python runtime they rely on: [str] methods,
    list indexing, [float()] on strings, text-mode [readlines] and
    [csv.writer].

    Conventions.
    - A Python [str] is a [string]; the model covers ASCII text (gene
      symbols, decimal numbers, separators).  [upper] is [str.upper] on that
      fragment.
    - A binary64 [float] is a [spec_float] at precision 53, [emax] 1024.
    - An uncaught exception is the left injection of [Exc]; there is no
      handler anywhere in the source, so an exception ends the run.
    - A file is the text that [open(path)] holds before newline translation. *)

From Stdlib Require Import Bool List ZArith NArith PArith Lia Ascii String.
From Stdlib Require Import Floats.SpecFloat.
Import ListNotations.

Local Open Scope string_scope.
Local Open Scope list_scope.

(** ** Exceptions *)

Inductive exn : Set :=
| IndexError
| ValueError.

Definition Exc (A : Type) : Type := (exn + A)%type.

Definition ret {A : Type} (a : A) : Exc A := inr a.
Definition raise {A : Type} (e : exn) : Exc A := inl e.

Definition bind {A B : Type} (m : Exc A) (k : A -> Exc B) : Exc B :=
  match m with
  | inl e => inl e
  | inr a => k a
  end.

Notation "x <- m ;; k" := (bind m (fun x => k))
  (at level 61, m at next level, right associativity).

(** [for x in xs: body], threading the variables the body assigns as [s]. *)
Fixpoint for_ {A S : Type} (xs : list A) (body : A -> S -> Exc S) (s : S)
  : Exc S :=
  match xs with
  | [] => ret s
  | x :: rest => s' <- body x s ;; for_ rest body s'
  end.

(** [l[i]] for a literal [i >= 0]. *)
Definition index {A : Type} (l : list A) (i : nat) : Exc A :=
  match nth_error l i with
  | Some a => ret a
  | None => raise IndexError
  end.

(** ** Characters *)

Definition LF : ascii := "010".
Definition CR : ascii := "013".
Definition TAB : ascii := "009".
Definition DQUOTE : ascii := "034".
Definition COMMA : ascii := ",".
Definition DOT : ascii := ".".

(** ** [str] methods *)

Definition is_empty (s : string) : bool :=
  match s with
  | EmptyString => true
  | String _ _ => false
  end.

Definition upper_char (c : ascii) : ascii :=
  let n := nat_of_ascii c in
  if (97 <=? n)%nat && (n <=? 122)%nat then ascii_of_nat (n - 32) else c.

Definition lower_char (c : ascii) : ascii :=
  let n := nat_of_ascii c in
  if (65 <=? n)%nat && (n <=? 90)%nat then ascii_of_nat (n + 32) else c.

Fixpoint map_chars (f : ascii -> ascii) (s : string) : string :=
  match s with
  | EmptyString => EmptyString
  | String c s' => String (f c) (map_chars f s')
  end.

(** [s.upper()] *)
Definition upper (s : string) : string := map_chars upper_char s.

Definition lower (s : string) : string := map_chars lower_char s.

(** [s.replace(a, b)] for one-character [a] and [b]. *)
Definition replace (a b : ascii) (s : string) : string :=
  map_chars (fun c => if Ascii.eqb c a then b else c) s.

(** [s.split(sep)] for a one-character [sep]: never the empty list. *)
Fixpoint split (sep : ascii) (s : string) : list string :=
  match s with
  | EmptyString => [EmptyString]
  | String c s' =>
      if Ascii.eqb c sep then EmptyString :: split sep s'
      else match split sep s' with
           | [] => [String c EmptyString]
           | f :: fs => String c f :: fs
           end
  end.

Fixpoint lstrip (p : ascii -> bool) (s : string) : string :=
  match s with
  | EmptyString => EmptyString
  | String c s' => if p c then lstrip p s' else s
  end.

Fixpoint rstrip (p : ascii -> bool) (s : string) : string :=
  match s with
  | EmptyString => EmptyString
  | String c s' =>
      let r := rstrip p s' in
      if p c && is_empty r then EmptyString else String c r
  end.

(** [s.strip(chars)] with the character set [chars] given as a predicate. *)
Definition strip_set (p : ascii -> bool) (s : string) : string :=
  rstrip p (lstrip p s).

(** [s.strip('\n')] *)
Definition strip (c : ascii) (s : string) : string :=
  strip_set (Ascii.eqb c) s.

(** [s.startswith(c)] and [s.endswith(c)] for a one-character [c]. *)
Definition startswith (c : ascii) (s : string) : bool :=
  match s with
  | EmptyString => false
  | String a _ => Ascii.eqb a c
  end.

Fixpoint endswith (c : ascii) (s : string) : bool :=
  match s with
  | EmptyString => false
  | String a EmptyString => Ascii.eqb a c
  | String _ s' => endswith c s'
  end.

Fixpoint removelast_char (s : string) : string :=
  match s with
  | EmptyString => EmptyString
  | String _ EmptyString => EmptyString
  | String a s' => String a (removelast_char s')
  end.

(** [s[1:-1]] *)
Definition slice_1_m1 (s : string) : string :=
  match s with
  | EmptyString => EmptyString
  | String _ s' => removelast_char s'
  end.

(** ** Text files *)

(** Universal newlines, the default of [open(path)]: CR LF and a lone CR
    are read as LF. *)
Fixpoint universal_newlines (s : string) : string :=
  match s with
  | EmptyString => EmptyString
  | String c s' =>
      if Ascii.eqb c CR then
        match s' with
        | String c' s'' =>
            if Ascii.eqb c' LF then String LF (universal_newlines s'')
            else String LF (universal_newlines s')
        | EmptyString => String LF EmptyString
        end
      else String c (universal_newlines s')
  end.

(** The lines of a text, each keeping its LF. *)
Fixpoint lines_of (s : string) : list string :=
  match s with
  | EmptyString => []
  | String c s' =>
      if Ascii.eqb c LF then String LF EmptyString :: lines_of s'
      else match lines_of s' with
           | [] => [String c EmptyString]
           | l :: ls => String c l :: ls
           end
  end.

(** [f.readlines()] on a file opened in text mode. *)
Definition readlines (file : string) : list string :=
  lines_of (universal_newlines file).

(** [[x.strip('\n').split(sep) for x in f.readlines()][1:]] *)
Definition read_table (sep : ascii) (file : string) : list (list string) :=
  tl (map (fun x => split sep (strip LF x)) (readlines file)).

(** ** [float(str)] *)

Definition prec : Z := 53.
Definition emax : Z := 1024.

(** The float [1.0], which the integer literal [1] is converted to when it
    is compared with a float. *)
Definition one : spec_float := SFone prec emax.

(** [x >= y] on floats: false as soon as one side is a NaN. *)
Definition float_ge (x y : spec_float) : bool := SFleb y x.

Definition is_space (c : ascii) : bool :=
  let n := nat_of_ascii c in
  ((9 <=? n)%nat && (n <=? 13)%nat) || (n =? 32)%nat.

Definition is_digit (c : ascii) : bool :=
  let n := nat_of_ascii c in (48 <=? n)%nat && (n <=? 57)%nat.

Definition digit_val (c : ascii) : N := N.of_nat (nat_of_ascii c - 48).

(** Underscores of a numeric literal: allowed only between two digits, and
    dropped before the literal is read.  [prev] is the previous character. *)
Fixpoint remove_underscores (prev : ascii) (s : string) : option string :=
  match s with
  | EmptyString => if Ascii.eqb prev "_" then None else Some EmptyString
  | String c s' =>
      if Ascii.eqb c "_" then
        if is_digit prev then remove_underscores c s' else None
      else if Ascii.eqb prev "_" && negb (is_digit c) then None
      else option_map (String c) (remove_underscores c s')
  end.

Definition take_sign (s : string) : bool * string :=
  match s with
  | String "-" r => (true, r)
  | String "+" r => (false, r)
  | _ => (false, s)
  end.

(** Reads a run of digits: the number read so far, how many digits were
    read, and the rest of the string. *)
Fixpoint take_digits (acc : N) (cnt : nat) (s : string) : N * nat * string :=
  match s with
  | String c s' =>
      if is_digit c then take_digits (10 * acc + digit_val c) (S cnt) s'
      else (acc, cnt, s)
  | EmptyString => (acc, cnt, s)
  end.

(** [e<sign>digits] up to the end of the string. *)
Definition parse_exponent (s : string) : option Z :=
  match s with
  | EmptyString => Some 0%Z
  | String c r =>
      if Ascii.eqb c "e" || Ascii.eqb c "E" then
        let (neg, r1) := take_sign r in
        let '(x, n, r2) := take_digits 0 0 r1 in
        match n, r2 with
        | S _, EmptyString => Some (if neg then (- Z.of_N x)%Z else Z.of_N x)
        | _, _ => None
        end
      else None
  end.

(** An unsigned decimal literal [digits [. digits] [exponent]] or
    [. digits [exponent]], read as [m * 10 ^ e]. *)
Definition parse_number (s : string) : option (N * Z) :=
  let '(m1, n1, r1) := take_digits 0 0 s in
  let '(m, n2, r2) :=
    match r1 with
    | String c r =>
        if Ascii.eqb c DOT then take_digits m1 0 r else (m1, 0%nat, r1)
    | EmptyString => (m1, 0%nat, r1)
    end in
  match (n1 + n2)%nat with
  | O => None
  | S _ =>
      match parse_exponent r2 with
      | Some x => Some (m, (x - Z.of_nat n2)%Z)
      | None => None
      end
  end.

(** The binary64 nearest to [(-1)^neg * m * 10^e], ties to even; beyond the
    largest finite float the result is an infinity. *)
Definition decimal_to_float (neg : bool) (m : N) (e : Z) : spec_float :=
  match m with
  | N0 => S754_zero neg
  | Npos p =>
      SFdiv prec emax
        (S754_finite neg (p * Z.to_pos (10 ^ e)) 0)
        (S754_finite false (Z.to_pos (10 ^ (- e))) 0)
  end.

(** A signed literal: a decimal number, an infinity or a NaN. *)
Definition strtod (s : string) : option spec_float :=
  let (neg, r) := take_sign s in
  match parse_number r with
  | Some (m, e) => Some (decimal_to_float neg m e)
  | None =>
      let l := lower r in
      if String.eqb l "inf" || String.eqb l "infinity"
      then Some (S754_infinity neg)
      else if String.eqb l "nan" then Some S754_nan
      else None
  end.

(** [float(s)] for a [str] argument. *)
Definition float (s : string) : Exc spec_float :=
  match remove_underscores "000" s with
  | None => raise ValueError
  | Some t =>
      match strtod (strip_set is_space t) with
      | Some x => ret x
      | None => raise ValueError
      end
  end.

(** ** [csv.writer(f, delimiter='\t')]

    The default dialect otherwise: minimal quoting with the double quote,
    quotes inside a field doubled, records ended by CR LF. *)

Fixpoint existsb_char (p : ascii -> bool) (s : string) : bool :=
  match s with
  | EmptyString => false
  | String c s' => p c || existsb_char p s'
  end.

Definition csv_special (delimiter : ascii) (c : ascii) : bool :=
  Ascii.eqb c delimiter || Ascii.eqb c DQUOTE || Ascii.eqb c CR
  || Ascii.eqb c LF.

Fixpoint double_quotes (s : string) : string :=
  match s with
  | EmptyString => EmptyString
  | String c s' =>
      if Ascii.eqb c DQUOTE then String DQUOTE (String DQUOTE (double_quotes s'))
      else String c (double_quotes s')
  end.

Definition csv_field (delimiter : ascii) (field : string) : string :=
  if existsb_char (csv_special delimiter) field
  then String DQUOTE (double_quotes field ++ String DQUOTE EmptyString)
  else field.

Fixpoint join (sep : ascii) (fields : list string) : string :=
  match fields with
  | [] => EmptyString
  | [f] => f
  | f :: rest => f ++ String sep (join sep rest)
  end.

(** One record; a record made of a single empty field is written as a pair
    of quotes. *)
Definition csv_record (delimiter : ascii) (row : list string) : string :=
  let body := join delimiter (map (csv_field delimiter) row) in
  (match row with
   | [_] => if is_empty body then String DQUOTE (String DQUOTE EmptyString)
            else body
   | _ => body
   end) ++ String CR (String LF EmptyString).

(** [writer.writerows(rows)]: the text appended to the file. *)
Definition writerows (delimiter : ascii) (rows : list (list string)) : string :=
  String.concat EmptyString (map (csv_record delimiter) rows).

(** ** The three stages *)

(** The element expression of the comprehension
    [[elm[1:-1] if elm.startswith('"') and elm.endswith('"') else elm
      for elm in line]]. *)
Definition strip_quotes (elm : string) : string :=
  if startswith DQUOTE elm && endswith DQUOTE elm then slice_1_m1 elm
  else elm.

(** The loop of [extract_from_seurat] over the parsed rows. *)
Definition extract_genes (content : list (list string)) : Exc (list string) :=
  for_ content
    (fun line only_genes =>
       let line := map strip_quotes line in
       g <- index line 7 ;;
       ret (only_genes ++ [g]))
    [].

(** [extract_from_seurat(path)], on the text of the file at [path]. *)
Definition extract_from_seurat (genes_per_cluster : string)
  : Exc (list string * list (list string)) :=
  let content := read_table COMMA genes_per_cluster in
  only_genes <- extract_genes content ;;
  ret (only_genes, content).

(** [gene_upper == line[1] and float(line[3]) >= 1]: the right operand is
    evaluated only when the left one is true. *)
Definition qualifies (gene_upper : string) (line : list string) : Exc bool :=
  l1 <- index line 1 ;;
  if String.eqb gene_upper l1 then
    l3 <- index line 3 ;;
    x <- float l3 ;;
    ret (float_ge x one)
  else ret false.

(** The body of the inner loop of [gene_annotation]. *)
Definition annotate_line (gene gene_upper : string) (line : list string)
    (gene_ct_ntpm : list (list string)) : Exc (list (list string)) :=
  c <- qualifies gene_upper line ;;
  if c then
    l2 <- index line 2 ;;
    l3 <- index line 3 ;;
    ret (gene_ct_ntpm ++ [[gene; l2; l3]])
  else ret gene_ct_ntpm.

(** The two nested loops of [gene_annotation] over the parsed table. *)
Definition annotate (content : list (list string)) (gene_list : list string)
  : Exc (list (list string)) :=
  for_ gene_list
    (fun gene gene_ct_ntpm =>
       let gene_upper := upper gene in
       for_ content (annotate_line gene gene_upper) gene_ct_ntpm)
    [].

(** [gene_annotation(path_annotations, gene_list)], on the text of the file
    at [path_annotations]. *)
Definition gene_annotation (all_annotations : string)
    (gene_list : list string) : Exc (list (list string)) :=
  let content := read_table TAB all_annotations in
  annotate content gene_list.

(** A row of [final_list]. *)
Record MergedRow : Type := mkMergedRow {
  cluster : string;
  gene : string;
  pvalue_a : string;
  cell_type : string;
  nTPM : spec_float
}.

(** The body of the inner loop of [i_m_annotating]; [line] is the cluster
    row after the quotes were stripped, the state is the pair
    [(final_list, final_list_excel_version)]. *)
Definition merge_gene (line : list string) (gene : list string)
    (st : list MergedRow * list (list string))
  : Exc (list MergedRow * list (list string)) :=
  let (final_list, final_list_excel_version) := st in
  l7 <- index line 7 ;;
  g0 <- index gene 0 ;;
  if String.eqb l7 g0 then
    l6 <- index line 6 ;;
    l7 <- index line 7 ;;
    l5 <- index line 5 ;;
    g1 <- index gene 1 ;;
    g2 <- index gene 2 ;;
    x <- float g2 ;;
    let final_list := final_list ++ [mkMergedRow l6 l7 l5 g1 x] in
    l6 <- index line 6 ;;
    l7 <- index line 7 ;;
    l5 <- index line 5 ;;
    g1 <- index gene 1 ;;
    g2 <- index gene 2 ;;
    ret (final_list,
         final_list_excel_version ++ [[l6; l7; l5; g1; replace DOT COMMA g2]])
  else ret st.

(** The two nested loops of [i_m_annotating]. *)
Definition merge (genes_tissue_list genes_clusters : list (list string))
  : Exc (list MergedRow * list (list string)) :=
  for_ genes_clusters
    (fun line st =>
       let line := map strip_quotes line in
       for_ genes_tissue_list (merge_gene line) st)
    ([], []).

(** [i_m_annotating(genes_tissue_list, genes_clusters)]: the text written to
    [genes_per_cluster_w_cell_type.tsv]; nothing is written when a loop
    raises. *)
Definition i_m_annotating (genes_tissue_list genes_clusters : list (list string))
  : Exc string :=
  st <- merge genes_tissue_list genes_clusters ;;
  ret (writerows TAB (snd st)).

(** The two lists [final_list] and [final_list_excel_version] that a run
    holds when the loops of [i_m_annotating] end. *)
Definition run (cluster_file annotation_file : string)
  : Exc (list MergedRow * list (list string)) :=
  r <- extract_from_seurat cluster_file ;;
  genes_tissues <- gene_annotation annotation_file (fst r) ;;
  merge genes_tissues (snd r).

(** The [__main__] block: the text of the output file. *)
Definition main (cluster_file annotation_file : string) : Exc string :=
  r <- extract_from_seurat cluster_file ;;
  let (genes, all_content) := r in
  genes_tissues <- gene_annotation annotation_file genes ;;
  i_m_annotating genes_tissues all_content.

(** ** Specification-side vocabulary *)

(** What a loop whose body only appends computes: the contributions of the
    elements, combined in order by [op] from the empty contribution [e]. *)
Fixpoint collect {A S : Type} (op : S -> S -> S) (e : S) (f : A -> Exc S)
    (xs : list A) : Exc S :=
  match xs with
  | [] => ret e
  | x :: rest => a <- f x ;; b <- collect op e f rest ;; ret (op a b)
  end.

Definition app2 {X Y : Type} (a b : list X * list Y) : list X * list Y :=
  (fst a ++ fst b, snd a ++ snd b).

(** The AnnotationRows that one reference row contributes for one gene. *)
Definition emit (gene : string) (line : list string)
  : Exc (list (list string)) :=
  annotate_line gene (upper gene) line [].

(** The test of [gene_annotation] holds of [gene] and [line]. *)
Definition passes (gene : string) (line : list string) : bool :=
  match qualifies (upper gene) line with
  | inr true => true
  | _ => false
  end.

Definition annotation_row (gene : string) (line : list string) : list string :=
  [gene; nth 2 line EmptyString; nth 3 line EmptyString].

(** The AnnotationRows of one gene occurrence: the rows of the table that
    pass, in the order of the table. *)
Definition rows_for (content : list (list string)) (gene : string)
  : list (list string) :=
  map (annotation_row gene) (filter (passes gene) content).

(** [c] does not occur in [s]. *)
Definition no_char (c : ascii) (s : string) : Prop :=
  existsb_char (Ascii.eqb c) s = false.

(** [s] holds no line break. *)
Definition one_line (s : string) : Prop := no_char LF s /\ no_char CR s.

(** The line endings that text mode reads as a line break. *)
Inductive newline : Set :=
| Unix
| Dos
| OldMac.

Definition newline_string (eol : newline) : string :=
  match eol with
  | Unix => String LF EmptyString
  | Dos => String CR (String LF EmptyString)
  | OldMac => String CR EmptyString
  end.

(** The text of a file made of a header line and data rows, with the line
    ending [eol] between the lines and, when [final_newline] is set, after
    the last one. *)
Definition text_file (eol : newline) (header : string) (rows : list string)
    (final_newline : bool) : string :=
  String.concat (newline_string eol) (header :: rows)
  ++ (if final_newline then newline_string eol else EmptyString).

(** [s] between two double quotes. *)
Definition quoted (s : string) : string :=
  String DQUOTE (s ++ String DQUOTE EmptyString).

(** The gene symbol of a ClusterRow: its field 7 without the outer quotes. *)
Definition gene_of (line : list string) : string :=
  strip_quotes (nth 7 line EmptyString).

(** The rows that one AnnotationRow contributes for one cluster row. *)
Definition emit_merge (line gene : list string)
  : Exc (list MergedRow * list (list string)) :=
  merge_gene line gene ([], []).

Definition row_eq_dec : forall r r' : list string, {r = r'} + {r <> r'} :=
  list_eq_dec string_dec.

(** [s] is ASCII text.  On ASCII text [upper] is [str.upper] and [float] is
    [float()]; beyond it Python also upper-cases other letters and reads
    other digits and other white space, which [upper] and [float] do not. *)
Definition is_ascii (s : string) : Prop :=
  existsb_char (fun c => (128 <=? nat_of_ascii c)%nat) s = false.

(** The export row that [i_m_annotating] builds from a cluster row, once its
    quotes are stripped, and an AnnotationRow. *)
Definition export_row (line a : list string) : list string :=
  [nth 6 line EmptyString; nth 7 line EmptyString; nth 5 line EmptyString;
   nth 1 a EmptyString; replace DOT COMMA (nth 2 a EmptyString)].

(** The test [line[7] == gene[0]] of [i_m_annotating]. *)
Definition joins (line a : list string) : bool :=
  String.eqb (nth 7 line EmptyString) (nth 0 a EmptyString).

(** The export rows of a merge that returns: for each cluster row in order,
    the AnnotationRows of its gene in order. *)
Definition export_rows (genes_tissue_list genes_clusters : list (list string))
  : list (list string) :=
  flat_map
    (fun c =>
       let line := map strip_quotes c in
       map (export_row line) (filter (joins line) genes_tissue_list))
    genes_clusters.

(** A field that [csv.writer] writes as it is. *)
Definition plain (field : string) : Prop :=
  existsb_char (csv_special TAB) field = false.

(** * Properties *)

(** ** Loops *)

(** Runs the monad as far as its arguments are known. *)
Ltac mred := cbv beta iota delta [bind ret raise].

Lemma bind_inr {A B : Type} (m : Exc A) (k : A -> Exc B) (b : B) :
  bind m k = inr b -> exists a, m = inr a /\ k a = inr b.
Proof.
  destruct m as [e | a]; simpl; intros H; [discriminate | eauto].
Qed.

Lemma bind_ret {A : Type} (m : Exc A) : bind m (fun a => ret a) = m.
Proof. destruct m; reflexivity. Qed.

Lemma bind_ext {A B : Type} (m : Exc A) (k k' : A -> Exc B) :
  (forall a, k a = k' a) -> bind m k = bind m k'.
Proof. intros H; destruct m; simpl; auto. Qed.

(** An element on which the body raises from every state makes the loop
    raise. *)
Lemma for_raises {A S : Type} (body : A -> S -> Exc S) (x : A) :
  (forall s, exists e, body x s = inl e) ->
  forall xs s, In x xs -> exists e, for_ xs body s = inl e.
Proof.
  intros Hx; induction xs as [| y xs IH]; simpl; intros s Hin; [easy |].
  destruct (body y s) as [e | s1] eqn:Hy; simpl; [eauto |].
  destruct Hin as [-> | Hin]; [| auto].
  destruct (Hx s) as (e & He); congruence.
Qed.

Section Appending.
Context {A S : Type}.
Variables (op : S -> S -> S) (e : S).
Hypothesis op_assoc : forall a b c, op a (op b c) = op (op a b) c.
Hypothesis op_e_l : forall a, op e a = a.
Hypothesis op_e_r : forall a, op a e = a.

Variable f : A -> Exc S.
Variable body : A -> S -> Exc S.
Hypothesis body_appends :
  forall x acc, body x acc = (r <- f x ;; ret (op acc r)).

Lemma for_collect (xs : list A) (acc : S) :
  for_ xs body acc = (r <- collect op e f xs ;; ret (op acc r)).
Proof.
  revert acc; induction xs as [| x xs IH]; intros acc; simpl.
  - now rewrite op_e_r.
  - rewrite body_appends.
    destruct (f x) as [err | a]; simpl; [reflexivity |].
    rewrite IH.
    destruct (collect op e f xs) as [err | b]; simpl; [reflexivity |].
    now rewrite op_assoc.
Qed.

Lemma collect_app (xs ys : list A) :
  collect op e f (xs ++ ys)
  = (a <- collect op e f xs ;; b <- collect op e f ys ;; ret (op a b)).
Proof.
  induction xs as [| x xs IH]; simpl.
  - destruct (collect op e f ys); simpl; [reflexivity |].
    now rewrite op_e_l.
  - destruct (f x) as [err | a]; simpl; [reflexivity |].
    rewrite IH.
    destruct (collect op e f xs) as [err | b]; simpl; [reflexivity |].
    destruct (collect op e f ys) as [err | c]; simpl; [reflexivity |].
    now rewrite op_assoc.
Qed.
End Appending.

(** When every contribution is a value, so is the whole, and conversely. *)
Lemma collect_list_inr {A B : Type} (f : A -> Exc (list B))
    (g : A -> list B) (xs : list A) :
  (forall x, In x xs -> f x = inr (g x)) ->
  collect (@app B) [] f xs = inr (flat_map g xs).
Proof.
  induction xs as [| x xs IH]; simpl; intros H; [reflexivity |].
  rewrite (H x) by auto. simpl. rewrite IH by auto. reflexivity.
Qed.

Lemma collect_list_inv {A B : Type} (f : A -> Exc (list B))
    (g : A -> list B) (xs : list A) (out : list B) :
  (forall x r, In x xs -> f x = inr r -> r = g x) ->
  collect (@app B) [] f xs = inr out -> out = flat_map g xs.
Proof.
  revert out; induction xs as [| x xs IH]; simpl; intros out H Hrun.
  - now injection Hrun as <-.
  - apply bind_inr in Hrun as (a & Ha & Hrun).
    apply bind_inr in Hrun as (b & Hb & Hrun).
    injection Hrun as <-.
    rewrite (H x a), (IH b); auto.
Qed.

Lemma collect_inr_each {A S : Type} (op : S -> S -> S) (e : S)
    (f : A -> Exc S) (xs : list A) (out : S) :
  collect op e f xs = inr out -> forall x, In x xs -> exists r, f x = inr r.
Proof.
  revert out; induction xs as [| y xs IH]; simpl; intros out Hrun x Hin.
  - easy.
  - apply bind_inr in Hrun as (a & Ha & Hrun).
    apply bind_inr in Hrun as (b & Hb & _).
    destruct Hin as [<- | Hin]; eauto.
Qed.

Lemma flat_map_singleton {A B : Type} (g : A -> B) (xs : list A) :
  flat_map (fun x => [g x]) xs = map g xs.
Proof. induction xs as [| x xs IH]; simpl; congruence. Qed.

Lemma flat_map_filter_map {A B : Type} (p : A -> bool) (g : A -> B)
    (xs : list A) :
  flat_map (fun x => if p x then [g x] else []) xs = map g (filter p xs).
Proof.
  induction xs as [| x xs IH]; simpl; [reflexivity |].
  destruct (p x); simpl; now rewrite IH.
Qed.

(** ** Indexing *)

Lemma index_inr {A : Type} (l : list A) (i : nat) (a : A) :
  index l i = inr a <-> nth_error l i = Some a.
Proof.
  unfold index; destruct (nth_error l i); simpl; split; intros H;
    try discriminate; now injection H as ->.
Qed.

Lemma index_some {A : Type} (l : list A) (i : nat) (a : A) :
  nth_error l i = Some a -> index l i = inr a.
Proof. apply index_inr. Qed.

Lemma index_lt {A : Type} (l : list A) (i : nat) :
  i < List.length l -> exists a, index l i = inr a.
Proof.
  intros H; unfold index.
  destruct (nth_error l i) eqn:E; [eauto |].
  apply nth_error_None in E; lia.
Qed.

Lemma nth_error_some_nth {A : Type} (l : list A) (i : nat) (a d : A) :
  nth_error l i = Some a -> nth i l d = a.
Proof. intros H; now apply nth_error_nth. Qed.

(** ** Comparison of floats *)

Lemma SFcompare_antisym (x y : spec_float) :
  SFcompare y x = option_map CompOpp (SFcompare x y).
Proof.
  destruct x as [sx | sx | | sx mx ex], y as [sy | sy | | sy my ey];
    simpl; try reflexivity;
    try (destruct sx; reflexivity); try (destruct sy; reflexivity);
    try (destruct sx, sy; reflexivity).
  destruct sx, sy; simpl; try reflexivity;
    rewrite (Z.compare_antisym ex ey); destruct (ex ?= ey)%Z; simpl;
    try reflexivity;
    change (Pos.compare_cont Eq my mx) with (my ?= mx)%positive;
    change (Pos.compare_cont Eq mx my) with (mx ?= my)%positive;
    rewrite (Pos.compare_antisym mx my); destruct (mx ?= my)%positive;
    reflexivity.
Qed.

Lemma float_lt_not_ge (x y : spec_float) :
  SFltb x y = true -> float_ge x y = false.
Proof.
  unfold float_ge, SFleb, SFltb. rewrite (SFcompare_antisym x y).
  destruct (SFcompare x y) as [[| |] |]; simpl; congruence.
Qed.

Lemma float_eq_ge (x y : spec_float) :
  SFeqb x y = true -> float_ge x y = true.
Proof.
  unfold float_ge, SFleb, SFeqb. rewrite (SFcompare_antisym x y).
  destruct (SFcompare x y) as [[| |] |]; simpl; congruence.
Qed.

Lemma float_raises_ValueError (s : string) (e : exn) :
  float s = inl e -> e = ValueError.
Proof.
  unfold float.
  destruct (remove_underscores _ s) as [t |]; [| now intros [= <-]].
  destruct (strtod _); [discriminate | now intros [= <-]].
Qed.

(** ** The annotator *)

Lemma qualifies_inr_true (gene_upper : string) (line : list string) :
  qualifies gene_upper line = inr true <->
  exists l3 x,
    nth_error line 1 = Some gene_upper /\ nth_error line 3 = Some l3 /\
    float l3 = inr x /\ float_ge x one = true.
Proof.
  unfold qualifies, index. split.
  - destruct (nth_error line 1) as [l1 |]; mred; [| discriminate].
    destruct (String.eqb_spec gene_upper l1) as [<- | _]; [| discriminate].
    destruct (nth_error line 3) as [l3 |]; mred; [| discriminate].
    destruct (float l3) as [e | x] eqn:Hx; mred; [discriminate |].
    intros [= H]. exists l3, x. auto.
  - intros (l3 & x & -> & -> & Hx & Hge); mred.
    rewrite String.eqb_refl, Hx; mred. now rewrite Hge.
Qed.

Lemma passes_true (gene : string) (line : list string) :
  passes gene line = true <->
  exists l3 x,
    nth_error line 1 = Some (upper gene) /\ nth_error line 3 = Some l3 /\
    float l3 = inr x /\ float_ge x one = true.
Proof.
  rewrite <- qualifies_inr_true. unfold passes.
  destruct (qualifies (upper gene) line) as [e | [|]]; split; congruence.
Qed.

Lemma qualifies_true_length (gene_upper : string) (line : list string) :
  qualifies gene_upper line = inr true -> 4 <= List.length line.
Proof.
  intros H. apply qualifies_inr_true in H as (l3 & x & _ & H3 & _).
  assert (nth_error line 3 <> None) as H by congruence.
  apply nth_error_Some in H. lia.
Qed.

Lemma emit_inr (gene : string) (line : list string) (r : list (list string)) :
  emit gene line = inr r ->
  r = if passes gene line then [annotation_row gene line] else [].
Proof.
  unfold emit, annotate_line, passes, annotation_row, index.
  destruct (qualifies (upper gene) line) as [e | [|]]; mred;
    [discriminate | | now intros [= <-]].
  destruct (nth_error line 2) as [l2 |] eqn:H2; mred; [| discriminate].
  destruct (nth_error line 3) as [l3 |] eqn:H3; mred; [| discriminate].
  intros [= <-].
  now rewrite (nth_error_some_nth _ _ _ _ H2), (nth_error_some_nth _ _ _ _ H3).
Qed.

Lemma emit_total (gene : string) (line : list string) (b : bool) :
  qualifies (upper gene) line = inr b ->
  emit gene line = inr (if passes gene line then [annotation_row gene line]
                        else []).
Proof.
  intros Hq.
  destruct (emit gene line) as [e | r] eqn:He.
  - exfalso. revert He. unfold emit, annotate_line. rewrite Hq; mred.
    destruct b; [| discriminate].
    pose proof (qualifies_true_length _ _ Hq) as Hlen.
    destruct (index_lt line 2) as (l2 & ->); [lia |].
    destruct (index_lt line 3) as (l3 & ->); [lia |].
    discriminate.
  - now rewrite (emit_inr _ _ _ He).
Qed.

Lemma annotate_line_emit (gene : string) (line : list string)
    (acc : list (list string)) :
  annotate_line gene (upper gene) line acc
  = (r <- emit gene line ;; ret (acc ++ r)).
Proof.
  unfold emit, annotate_line.
  destruct (qualifies (upper gene) line) as [e | [|]]; mred;
    [reflexivity | | now rewrite app_nil_r].
  destruct (index line 2); mred; [reflexivity |].
  destruct (index line 3); mred; reflexivity.
Qed.

(** The annotator as a collection of per-row contributions. *)
Lemma annotate_collect (content : list (list string)) (gene_list : list string) :
  annotate content gene_list
  = collect (@app _) []
      (fun gene => collect (@app _) [] (emit gene) content) gene_list.
Proof.
  unfold annotate.
  rewrite (for_collect (@app _) [] (@app_assoc _) (@app_nil_r _)
             (fun gene => collect (@app _) [] (emit gene) content)).
  - simpl. apply bind_ret.
  - intros gene acc.
    apply (for_collect (@app _) [] (@app_assoc _) (@app_nil_r _) (emit gene)).
    apply annotate_line_emit.
Qed.

Lemma annotate_inr (content : list (list string)) (gene_list : list string)
    (out : list (list string)) :
  annotate content gene_list = inr out ->
  out = flat_map (rows_for content) gene_list.
Proof.
  rewrite annotate_collect. apply collect_list_inv.
  intros gene r _ Hr. unfold rows_for. rewrite <- flat_map_filter_map.
  revert Hr. apply collect_list_inv.
  intros line r' _. apply emit_inr.
Qed.

Lemma annotate_total (content : list (list string)) (gene_list : list string) :
  (forall gene line, In gene gene_list -> In line content ->
     exists b, qualifies (upper gene) line = inr b) ->
  annotate content gene_list = inr (flat_map (rows_for content) gene_list).
Proof.
  intros H. rewrite annotate_collect. apply collect_list_inr.
  intros gene Hg. unfold rows_for. rewrite <- flat_map_filter_map.
  apply collect_list_inr. intros line Hl.
  destruct (H gene line Hg Hl) as (b & Hb). now apply emit_total with b.
Qed.

(** ** Strings *)

Section Strings.
Local Open Scope string_scope.

Lemma append_nil_r (s : string) : s ++ EmptyString = s.
Proof. induction s as [| c s IH]; simpl; congruence. Qed.

Lemma append_assoc (a b c : string) : (a ++ b) ++ c = a ++ (b ++ c).
Proof. induction a as [| x a IH]; simpl; congruence. Qed.

Lemma existsb_char_app (p : ascii -> bool) (a b : string) :
  existsb_char p (a ++ b) = existsb_char p a || existsb_char p b.
Proof.
  induction a as [| x a IH]; simpl; [reflexivity |].
  now rewrite IH, orb_assoc.
Qed.

Lemma no_char_cons (c x : ascii) (s : string) :
  no_char c (String x s) <-> Ascii.eqb c x = false /\ no_char c s.
Proof. unfold no_char; simpl. apply orb_false_iff. Qed.

Lemma no_char_app (c : ascii) (a b : string) :
  no_char c (a ++ b) <-> no_char c a /\ no_char c b.
Proof. unfold no_char. rewrite existsb_char_app. apply orb_false_iff. Qed.

Lemma no_char_join (c sep : ascii) (fields : list string) :
  Ascii.eqb c sep = false -> Forall (no_char c) fields ->
  no_char c (join sep fields).
Proof.
  intros Hsep H; induction H as [| f fs Hf Hfs IH]; [reflexivity |].
  destruct fs as [| g fs]; [exact Hf |].
  change (no_char c (f ++ String sep (join sep (g :: fs)))).
  apply no_char_app; split; [exact Hf |].
  apply no_char_cons; auto.
Qed.

Lemma split_no_sep (sep : ascii) (s : string) :
  no_char sep s -> split sep s = [s].
Proof.
  induction s as [| c s IH]; simpl; intros H; [reflexivity |].
  apply no_char_cons in H as (Hc & Hs).
  rewrite Ascii.eqb_sym, Hc, (IH Hs). reflexivity.
Qed.

Lemma split_app_sep (sep : ascii) (a b : string) :
  no_char sep a -> split sep (a ++ String sep b) = a :: split sep b.
Proof.
  induction a as [| c a IH]; simpl; intros H.
  - now rewrite Ascii.eqb_refl.
  - apply no_char_cons in H as (Hc & Ha).
    rewrite Ascii.eqb_sym, Hc, (IH Ha). reflexivity.
Qed.

(** Splitting undoes joining, for fields free of the separator. *)
Lemma split_join (sep : ascii) (f : string) (fields : list string) :
  Forall (no_char sep) (f :: fields) ->
  split sep (join sep (f :: fields)) = f :: fields.
Proof.
  revert f; induction fields as [| g fields IH]; intros f H.
  - apply split_no_sep. now inversion H.
  - change (join sep (f :: g :: fields))
      with (f ++ String sep (join sep (g :: fields))).
    inversion H as [| ? ? Hf Hrest]; subst.
    rewrite (split_app_sep _ _ _ Hf), (IH g Hrest). reflexivity.
Qed.

Lemma lstrip_id (p : ascii -> bool) (s : string) :
  existsb_char p s = false -> lstrip p s = s.
Proof.
  destruct s as [| c s]; simpl; [reflexivity |].
  intros H; apply orb_false_iff in H as (-> & _); reflexivity.
Qed.

Lemma rstrip_id (p : ascii -> bool) (s : string) :
  existsb_char p s = false -> rstrip p s = s.
Proof.
  induction s as [| c s IH]; simpl; [reflexivity |].
  intros H; apply orb_false_iff in H as (-> & Hs).
  now rewrite (IH Hs).
Qed.

Lemma rstrip_app_one (p : ascii -> bool) (s : string) (c : ascii) :
  existsb_char p s = false -> p c = true ->
  rstrip p (s ++ String c EmptyString) = s.
Proof.
  intros Hs Hc; induction s as [| x s IH]; simpl.
  - now rewrite Hc.
  - simpl in Hs. apply orb_false_iff in Hs as (-> & Hs).
    now rewrite (IH Hs).
Qed.

Lemma lstrip_app_one (p : ascii -> bool) (s : string) (c : ascii) :
  existsb_char p s = false -> p c = true ->
  lstrip p (s ++ String c EmptyString)
  = if is_empty s then EmptyString else s ++ String c EmptyString.
Proof.
  intros Hs Hc; destruct s as [| x s]; simpl.
  - now rewrite Hc.
  - simpl in Hs. apply orb_false_iff in Hs as (-> & _). reflexivity.
Qed.

Lemma strip_id (c : ascii) (s : string) : no_char c s -> strip c s = s.
Proof.
  intros H; unfold strip, strip_set.
  rewrite (lstrip_id _ _ H). now apply rstrip_id.
Qed.

Lemma strip_app_one (c : ascii) (s : string) :
  no_char c s -> strip c (s ++ String c EmptyString) = s.
Proof.
  intros H; unfold strip, strip_set.
  rewrite (lstrip_app_one _ _ c H (Ascii.eqb_refl c)).
  destruct s as [| x s]; [reflexivity |].
  apply rstrip_app_one; [exact H | apply Ascii.eqb_refl].
Qed.

End Strings.

(** ** Reading a file *)

Section Reading.
Local Open Scope string_scope.

Lemma universal_newlines_app_line (l rest : string) :
  no_char CR l ->
  universal_newlines (l ++ rest) = l ++ universal_newlines rest.
Proof.
  induction l as [| c l IH]; intros H; [reflexivity |].
  apply no_char_cons in H as (Hc & Hl).
  cbn [append universal_newlines].
  rewrite Ascii.eqb_sym, Hc, (IH Hl). reflexivity.
Qed.

(** A line ending is read as LF; a lone CR must not be followed by LF, with
    which it would make a single line ending. *)
Lemma universal_newlines_newline (eol : newline) (rest : string) :
  (eol = OldMac -> startswith LF rest = false) ->
  universal_newlines (newline_string eol ++ rest)
  = String LF (universal_newlines rest).
Proof.
  destruct eol; intros H; cbn [newline_string append].
  - reflexivity.
  - reflexivity.
  - destruct rest as [| c r]; [reflexivity |].
    specialize (H eq_refl). cbn [startswith] in H.
    cbn [universal_newlines]. change (Ascii.eqb CR CR) with true.
    cbv iota. now rewrite H.
Qed.

Lemma lines_of_app_LF (l rest : string) :
  no_char LF l ->
  lines_of (l ++ String LF rest) = (l ++ String LF EmptyString) :: lines_of rest.
Proof.
  induction l as [| c l IH]; intros H.
  - reflexivity.
  - apply no_char_cons in H as (Hc & Hl).
    cbn [append lines_of]. rewrite Ascii.eqb_sym, Hc, (IH Hl). reflexivity.
Qed.

Lemma lines_of_one_line (l : string) :
  no_char LF l -> lines_of l = if is_empty l then [] else [l].
Proof.
  induction l as [| c l IH]; intros H; [reflexivity |].
  apply no_char_cons in H as (Hc & Hl).
  cbn [lines_of is_empty]. rewrite Ascii.eqb_sym, Hc, (IH Hl).
  destruct l; reflexivity.
Qed.

Section ReadTable.
Variable eol : newline.
Variable final_newline : bool.

Let ending (e : newline) : string :=
  if final_newline then newline_string e else EmptyString.

Lemma startswith_LF_lines (l : string) (ls : list string) :
  eol = OldMac -> no_char LF l ->
  startswith LF (String.concat (newline_string eol) (l :: ls) ++ ending eol)
  = false.
Proof.
  intros -> Hl. unfold ending. destruct l as [| c l].
  - destruct ls, final_newline; reflexivity.
  - apply no_char_cons in Hl as (Hc & _). rewrite Ascii.eqb_sym in Hc.
    destruct ls; exact Hc.
Qed.

(** Newline translation turns the text of a file into the text of the same
    lines with Unix line endings. *)
Lemma universal_newlines_lines (l : string) (ls : list string) :
  Forall one_line (l :: ls) ->
  universal_newlines
    (String.concat (newline_string eol) (l :: ls) ++ ending eol)
  = join LF (l :: ls) ++ ending Unix.
Proof.
  revert l; induction ls as [| l' ls IH]; intros l H;
    inversion H as [| ? ? (HLF & HCR) Hrest]; subst.
  - cbn [String.concat join].
    rewrite (universal_newlines_app_line _ _ HCR). f_equal.
    unfold ending. destruct final_newline; [| reflexivity].
    rewrite <- (append_nil_r (newline_string eol)).
    now rewrite universal_newlines_newline.
  - change (String.concat (newline_string eol) (l :: l' :: ls))
      with (l ++ newline_string eol
              ++ String.concat (newline_string eol) (l' :: ls)).
    change (join LF (l :: l' :: ls))
      with (l ++ String LF (join LF (l' :: ls))).
    rewrite !append_assoc.
    rewrite (universal_newlines_app_line _ _ HCR). f_equal.
    rewrite universal_newlines_newline.
    + cbn [append]. now rewrite (IH l' Hrest).
    + intros E. apply startswith_LF_lines; [exact E |].
      now destruct (Forall_inv Hrest).
Qed.

Lemma stripped_lines_join (r : string) (rs : list string) :
  Forall (fun l => no_char LF l /\ l <> EmptyString) (r :: rs) ->
  map (strip LF) (lines_of (join LF (r :: rs) ++ ending Unix)) = r :: rs.
Proof.
  revert r; induction rs as [| r' rs IH]; intros r H;
    inversion H as [| ? ? (Hr & Hne) Hrest]; subst.
  - unfold ending; destruct final_newline; cbn [join newline_string].
    + rewrite (lines_of_app_LF _ _ Hr). cbn [lines_of map].
      now rewrite (strip_app_one _ _ Hr).
    + rewrite append_nil_r, (lines_of_one_line _ Hr).
      destruct r; [congruence |]. cbn [is_empty map].
      now rewrite (strip_id _ _ Hr).
  - change (join LF (r :: r' :: rs))
      with (r ++ String LF (join LF (r' :: rs))).
    rewrite append_assoc. cbn [append].
    rewrite (lines_of_app_LF _ _ Hr). cbn [map].
    rewrite (strip_app_one _ _ Hr), (IH r' Hrest). reflexivity.
Qed.

(** The table read from a file is its data rows, split at the separator:
    the header is dropped. *)
Lemma read_table_text_file (sep : ascii) (header : string)
    (rows : list string) :
  one_line header ->
  Forall (fun r => one_line r /\ r <> EmptyString) rows ->
  read_table sep (text_file eol header rows final_newline)
  = map (split sep) rows.
Proof.
  intros Hh Hrows.
  assert (Forall one_line (header :: rows)) as Hone.
  { constructor; [exact Hh |].
    eapply Forall_impl; [| exact Hrows]. now intros r (H & _). }
  assert (Forall (fun l => no_char LF l /\ l <> EmptyString) rows) as HLF.
  { eapply Forall_impl; [| exact Hrows]. now intros r ((H & _) & H'). }
  destruct Hh as (HhLF & _).
  unfold read_table, readlines, text_file. fold (ending eol).
  rewrite (universal_newlines_lines header rows Hone).
  destruct rows as [| r rs].
  - cbn [join]. unfold ending; destruct final_newline; cbn [newline_string].
    + rewrite (lines_of_app_LF _ _ HhLF). reflexivity.
    + rewrite append_nil_r, (lines_of_one_line _ HhLF).
      destruct header; reflexivity.
  - change (join LF (header :: r :: rs))
      with (header ++ String LF (join LF (r :: rs))).
    rewrite append_assoc. cbn [append].
    rewrite (lines_of_app_LF _ _ HhLF). cbn [map tl].
    rewrite <- (map_map (strip LF) (split sep)).
    now rewrite (stripped_lines_join r rs HLF).
Qed.
End ReadTable.

End Reading.

Lemma join_two_nonempty (sep : ascii) (f g : string) (fs : list string) :
  join sep (f :: g :: fs) <> EmptyString.
Proof.
  change (join sep (f :: g :: fs))
    with (f ++ String sep (join sep (g :: fs)))%string.
  destruct f; discriminate.
Qed.

Lemma one_line_join (sep : ascii) (fields : list string) :
  Ascii.eqb LF sep = false -> Ascii.eqb CR sep = false ->
  Forall one_line fields -> one_line (join sep fields).
Proof.
  intros HLF HCR H. split; apply no_char_join; auto;
    eapply Forall_impl; try exact H; now intros f (? & ?).
Qed.

(** ** Quote stripping *)

Section Quotes.
Local Open Scope string_scope.

Lemma endswith_app_one (c a : ascii) (s : string) :
  endswith c (String a (s ++ String c EmptyString)) = true.
Proof.
  revert a; induction s as [| x s IH]; intros a; cbn [append endswith].
  - apply Ascii.eqb_refl.
  - apply IH.
Qed.

Lemma removelast_char_app_one (s : string) (c : ascii) :
  removelast_char (s ++ String c EmptyString) = s.
Proof.
  induction s as [| x s IH]; [reflexivity |].
  cbn [append removelast_char]. rewrite IH.
  destruct s; reflexivity.
Qed.

Lemma strip_quotes_quoted (s : string) : strip_quotes (quoted s) = s.
Proof.
  unfold strip_quotes, quoted.
  rewrite endswith_app_one. cbn [startswith slice_1_m1].
  rewrite Ascii.eqb_refl. apply removelast_char_app_one.
Qed.

Lemma strip_quotes_unbounded (elm : string) :
  startswith DQUOTE elm && endswith DQUOTE elm = false ->
  strip_quotes elm = elm.
Proof. unfold strip_quotes; now intros ->. Qed.

Lemma endswith_inv (c : ascii) (s : string) :
  endswith c s = true -> exists t, s = t ++ String c EmptyString.
Proof.
  induction s as [| a s IH]; [discriminate |].
  destruct s as [| b s].
  - cbn [endswith]. intros H. apply Ascii.eqb_eq in H as ->.
    now exists EmptyString.
  - intros H. destruct (IH H) as (t & ->). now exists (String a t).
Qed.

(** A field that starts and ends with a quote is either a quoted string or
    the one-character string made of a quote. *)
Lemma bounded_inv (elm : string) :
  startswith DQUOTE elm && endswith DQUOTE elm = true ->
  elm = String DQUOTE EmptyString \/ exists s, elm = quoted s.
Proof.
  intros H; apply andb_true_iff in H as (Hs & He).
  destruct elm as [| a elm]; [discriminate |].
  cbn [startswith] in Hs. apply Ascii.eqb_eq in Hs as ->.
  destruct elm as [| b elm]; [now left |].
  right. destruct (endswith_inv DQUOTE (String b elm)) as (t & Ht).
  - exact He.
  - exists t. unfold quoted. now rewrite Ht.
Qed.

End Quotes.

(** ** The extractor *)

Lemma extract_genes_collect (content : list (list string)) :
  extract_genes content
  = collect (@app _) []
      (fun line => g <- index (map strip_quotes line) 7 ;; ret [g]) content.
Proof.
  unfold extract_genes.
  rewrite (for_collect (@app _) [] (@app_assoc _) (@app_nil_r _)
             (fun line => g <- index (map strip_quotes line) 7 ;; ret [g])).
  - simpl. apply bind_ret.
  - intros line acc. now destruct (index (map strip_quotes line) 7).
Qed.

Lemma index_map_strip_quotes (line : list string) :
  8 <= List.length line ->
  index (map strip_quotes line) 7 = inr (gene_of line).
Proof.
  intros H. apply index_some. rewrite nth_error_map.
  destruct (nth_error line 7) as [l7 |] eqn:E.
  - unfold gene_of. now rewrite (nth_error_some_nth _ _ _ _ E).
  - apply nth_error_None in E. lia.
Qed.

Lemma extract_genes_total (content : list (list string)) :
  Forall (fun line => 8 <= List.length line) content ->
  extract_genes content = inr (map gene_of content).
Proof.
  intros H. rewrite extract_genes_collect.
  rewrite (collect_list_inr _ (fun line => [gene_of line])).
  - now rewrite flat_map_singleton.
  - intros line Hl. rewrite Forall_forall in H.
    now rewrite index_map_strip_quotes by auto.
Qed.

Lemma extract_genes_inr (content : list (list string)) (genes : list string) :
  extract_genes content = inr genes ->
  Forall (fun line => 8 <= List.length line) content /\
  genes = map gene_of content.
Proof.
  intros H.
  assert (Forall (fun line => 8 <= List.length line) content) as Hlen.
  { apply Forall_forall. intros line Hl.
    rewrite extract_genes_collect in H.
    destruct (collect_inr_each _ _ _ _ _ H line Hl) as (r & Hr).
    destruct (index (map strip_quotes line) 7) as [e | g] eqn:E;
      [discriminate |].
    apply index_inr in E.
    assert (nth_error (map strip_quotes line) 7 <> None) as E' by congruence.
    apply nth_error_Some in E'. rewrite length_map in E'. lia. }
  split; [exact Hlen |].
  rewrite (extract_genes_total _ Hlen) in H. now injection H.
Qed.

Lemma extract_from_seurat_inr (file : string) (genes : list string)
    (content : list (list string)) :
  extract_from_seurat file = inr (genes, content) ->
  content = read_table COMMA file /\
  Forall (fun line => 8 <= List.length line) content /\
  genes = map gene_of content.
Proof.
  unfold extract_from_seurat. intros H.
  apply bind_inr in H as (g & Hg & H). injection H as -> <-.
  split; [reflexivity |]. now apply extract_genes_inr.
Qed.

(** ** The merger *)

Lemma app2_assoc {X Y : Type} (a b c : list X * list Y) :
  app2 a (app2 b c) = app2 (app2 a b) c.
Proof. unfold app2; simpl. now rewrite !app_assoc. Qed.

Lemma app2_nil_l {X Y : Type} (a : list X * list Y) : app2 ([], []) a = a.
Proof. now destruct a. Qed.

Lemma app2_nil_r {X Y : Type} (a : list X * list Y) : app2 a ([], []) = a.
Proof. destruct a; unfold app2; simpl. now rewrite !app_nil_r. Qed.

Lemma merge_gene_emit (line gene : list string)
    (st : list MergedRow * list (list string)) :
  merge_gene line gene st = (r <- emit_merge line gene ;; ret (app2 st r)).
Proof.
  unfold emit_merge, merge_gene, index. destruct st as (fl, fx).
  destruct (nth_error line 7); mred; [| reflexivity].
  destruct (nth_error gene 0); mred; [| reflexivity].
  destruct (String.eqb _ _); [| now rewrite app2_nil_r].
  destruct (nth_error line 6); mred; [| reflexivity].
  destruct (nth_error line 5); mred; [| reflexivity].
  destruct (nth_error gene 1); mred; [| reflexivity].
  destruct (nth_error gene 2); mred; [| reflexivity].
  destruct (float _); mred; reflexivity.
Qed.

Lemma merge_collect (genes_tissue_list genes_clusters : list (list string)) :
  merge genes_tissue_list genes_clusters
  = collect app2 ([], [])
      (fun line =>
         collect app2 ([], []) (emit_merge (map strip_quotes line))
           genes_tissue_list)
      genes_clusters.
Proof.
  unfold merge.
  rewrite (for_collect app2 ([], []) app2_assoc app2_nil_r
             (fun line =>
                collect app2 ([], []) (emit_merge (map strip_quotes line))
                  genes_tissue_list)).
  - rewrite <- (bind_ret (collect _ _ _ _)) at 2.
    apply bind_ext. intros a. now rewrite app2_nil_l.
  - intros line acc.
    apply (for_collect app2 ([], []) app2_assoc app2_nil_r).
    apply merge_gene_emit.
Qed.

(** What a successful step of the merge loop did. *)
Lemma emit_merge_inr (line a : list string)
    (p : list MergedRow * list (list string)) :
  emit_merge line a = inr p ->
  exists l7 g0,
    nth_error line 7 = Some l7 /\ nth_error a 0 = Some g0 /\
    ((l7 <> g0 /\ p = ([], [])) \/
     (l7 = g0 /\
      exists l5 l6 g1 g2 x,
        nth_error line 5 = Some l5 /\ nth_error line 6 = Some l6 /\
        nth_error a 1 = Some g1 /\ nth_error a 2 = Some g2 /\
        float g2 = inr x /\
        p = ([mkMergedRow l6 l7 l5 g1 x],
             [[l6; l7; l5; g1; replace DOT COMMA g2]]))).
Proof.
  unfold emit_merge, merge_gene, index.
  destruct (nth_error line 7) as [l7 |]; mred; [| discriminate].
  destruct (nth_error a 0) as [g0 |]; mred; [| discriminate].
  intros H. exists l7, g0. split; [reflexivity |]. split; [reflexivity |].
  destruct (String.eqb_spec l7 g0) as [Heq | Hne].
  - right. split; [exact Heq |]. revert H.
    destruct (nth_error line 6) as [l6 |]; mred; [| discriminate].
    destruct (nth_error line 5) as [l5 |]; mred; [| discriminate].
    destruct (nth_error a 1) as [g1 |]; mred; [| discriminate].
    destruct (nth_error a 2) as [g2 |]; mred; [| discriminate].
    destruct (float g2) as [e | x] eqn:Hx; mred; [discriminate |].
    intros [= <-]. exists l5, l6, g1, g2, x. auto 10.
  - left. split; [exact Hne |]. now injection H.
Qed.

Lemma emit_merge_total (line a : list string) (l5 l6 l7 g0 g1 g2 : string)
    (x : spec_float) :
  nth_error line 5 = Some l5 -> nth_error line 6 = Some l6 ->
  nth_error line 7 = Some l7 ->
  nth_error a 0 = Some g0 -> nth_error a 1 = Some g1 ->
  nth_error a 2 = Some g2 -> float g2 = inr x ->
  emit_merge line a
  = inr (if String.eqb l7 g0
         then ([mkMergedRow l6 l7 l5 g1 x],
               [[l6; l7; l5; g1; replace DOT COMMA g2]])
         else ([], [])).
Proof.
  intros H5 H6 H7 H0 H1 H2 Hx. unfold emit_merge, merge_gene, index.
  rewrite H7, H0; mred. destruct (String.eqb l7 g0); [| reflexivity].
  rewrite H6, H5, H1, H2; mred. rewrite Hx; mred. reflexivity.
Qed.

(** Membership in what an appending loop over pairs of lists returns. *)
Lemma collect_app2_fst_in {A X Y : Type} (f : A -> Exc (list X * list Y))
    (xs : list A) (out : list X * list Y) (r : X) :
  collect app2 ([], []) f xs = inr out -> In r (fst out) ->
  exists x p, In x xs /\ f x = inr p /\ In r (fst p).
Proof.
  revert out; induction xs as [| y xs IH]; simpl; intros out Hrun Hin.
  - injection Hrun as <-. easy.
  - apply bind_inr in Hrun as (a & Ha & Hrun).
    apply bind_inr in Hrun as (b & Hb & Hrun).
    injection Hrun as <-. simpl in Hin. apply in_app_or in Hin as [Hin | Hin].
    + exists y, a. auto.
    + destruct (IH b Hb Hin) as (x & p & Hx & Hp & Hr). exists x, p. auto.
Qed.

Lemma collect_app2_Forall2 {A X Y : Type} (R : X -> Y -> Prop)
    (f : A -> Exc (list X * list Y)) (xs : list A) (out : list X * list Y) :
  (forall x p, In x xs -> f x = inr p -> Forall2 R (fst p) (snd p)) ->
  collect app2 ([], []) f xs = inr out -> Forall2 R (fst out) (snd out).
Proof.
  revert out; induction xs as [| y xs IH]; simpl; intros out H Hrun.
  - injection Hrun as <-. constructor.
  - apply bind_inr in Hrun as (a & Ha & Hrun).
    apply bind_inr in Hrun as (b & Hb & Hrun).
    injection Hrun as <-. simpl. apply Forall2_app; eauto.
Qed.

(** The sizes of what an appending loop over pairs of lists returns. *)
Lemma collect_app2_length {A X Y : Type} (f : A -> Exc (list X * list Y))
    (n : A -> nat) (xs : list A) :
  (forall x, In x xs ->
     exists p, f x = inr p /\ List.length (fst p) = n x /\
               List.length (snd p) = n x) ->
  exists out,
    collect app2 ([], []) f xs = inr out /\
    List.length (fst out) = list_sum (map n xs) /\
    List.length (snd out) = list_sum (map n xs).
Proof.
  induction xs as [| y xs IH]; simpl; intros H.
  - exists ([], []). auto.
  - destruct (H y) as (a & Ha & Ha1 & Ha2); [auto |].
    destruct IH as (b & Hb & Hb1 & Hb2); [auto |].
    rewrite Ha, Hb. mred. exists (app2 a b). split; [reflexivity |].
    unfold app2; simpl. rewrite !length_app. lia.
Qed.

(** ** More on the annotator *)

Lemma for_inl_kind {A S : Type} (P : exn -> Prop) (body : A -> S -> Exc S)
    (xs : list A) :
  (forall x s e, In x xs -> body x s = inl e -> P e) ->
  forall s e, for_ xs body s = inl e -> P e.
Proof.
  induction xs as [| x xs IH]; simpl; intros H s e Hrun; [discriminate |].
  destruct (body x s) as [e' | s'] eqn:Hx; simpl in Hrun.
  - injection Hrun as <-. eauto.
  - eapply IH; eauto.
Qed.

Lemma annotate_line_inl (gene gene_upper : string) (line : list string)
    (acc : list (list string)) (e : exn) :
  4 <= List.length line ->
  annotate_line gene gene_upper line acc = inl e -> e = ValueError.
Proof.
  intros Hlen. unfold annotate_line, qualifies.
  destruct (index_lt line 1) as (l1 & ->); [lia |].
  destruct (index_lt line 2) as (l2 & ->); [lia |].
  destruct (index_lt line 3) as (l3 & ->); [lia |]. mred.
  destruct (String.eqb gene_upper l1); [| discriminate].
  destruct (float l3) as [e' | x] eqn:Hx; mred.
  - intros [= <-]. now apply float_raises_ValueError with l3.
  - destruct (float_ge x one); discriminate.
Qed.

Lemma annotate_line_raises (gene : string) (line : list string) (l3 : string) :
  nth_error line 1 = Some (upper gene) -> nth_error line 3 = Some l3 ->
  float l3 = inl ValueError ->
  forall acc, exists e, annotate_line gene (upper gene) line acc = inl e.
Proof.
  intros H1 H3 Hf acc. exists ValueError.
  unfold annotate_line, qualifies, index. rewrite H1; mred.
  rewrite String.eqb_refl, H3; mred. now rewrite Hf.
Qed.

Lemma annotate_single (content : list (list string)) (gene : string)
    (rows : list (list string)) :
  annotate content [gene] = inr rows -> rows = rows_for content gene.
Proof.
  intros H. apply annotate_inr in H. simpl in H. now rewrite app_nil_r in H.
Qed.

Lemma annotate_app (content : list (list string)) (xs ys : list string) :
  annotate content (xs ++ ys)
  = (a <- annotate content xs ;; b <- annotate content ys ;; ret (a ++ b)).
Proof.
  rewrite !annotate_collect.
  apply (collect_app (@app _) [] (@app_assoc _) (@app_nil_l _)).
Qed.

Lemma in_rows_for (content : list (list string)) (gene : string)
    (r : list string) :
  In r (rows_for content gene) <->
  exists line,
    In line content /\ passes gene line = true /\
    r = annotation_row gene line.
Proof.
  unfold rows_for. rewrite in_map_iff. split.
  - intros (line & <- & Hin). apply filter_In in Hin as (Hin & Hp). eauto.
  - intros (line & Hin & Hp & ->). exists line. split; [reflexivity |].
    apply filter_In; auto.
Qed.

(** ** Counting the rows of a run *)

Lemma filter_none {A : Type} (p : A -> bool) (l : list A) :
  (forall x, In x l -> p x = false) -> filter p l = [].
Proof.
  induction l as [| x l IH]; simpl; intros H; [reflexivity |].
  rewrite (H x) by auto. auto.
Qed.

Lemma list_sum_map_const {A : Type} (c : nat) (l : list A) :
  list_sum (map (fun _ => c) l) = List.length l * c.
Proof. induction l as [| x l IH]; simpl; [reflexivity | now rewrite IH]. Qed.

(** A sum that counts [m] for each element whose key is [k]. *)
Lemma list_sum_count {A : Type} (key : A -> string) (k : string) (m : nat)
    (l : list A) :
  list_sum (map (fun x => if string_dec (key x) k then m else 0) l)
  = count_occ string_dec (map key l) k * m.
Proof.
  induction l as [| x l IH]; simpl; [reflexivity |].
  rewrite IH. destruct (string_dec (key x) k); lia.
Qed.

Lemma length_flat_map_count {B : Type} (f : string -> list B) (k : string)
    (l : list string) :
  (forall g, In g l -> g <> k -> f g = []) ->
  List.length (flat_map f l) = count_occ string_dec l k * List.length (f k).
Proof.
  induction l as [| g l IH]; simpl; intros H; [reflexivity |].
  rewrite length_app, IH by auto.
  destruct (string_dec g k) as [-> | Hne]; [lia |].
  rewrite (H g) by auto. reflexivity.
Qed.

Lemma in_flat_map_only {B : Type} (f : string -> list B) (k : string)
    (l : list string) (b : B) :
  (forall g, In g l -> g <> k -> f g = []) ->
  In b (flat_map f l) -> In b (f k).
Proof.
  intros H Hin. apply in_flat_map in Hin as (g & Hg & Hb).
  destruct (string_dec g k) as [-> | Hne]; [exact Hb |].
  rewrite (H g Hg Hne) in Hb. easy.
Qed.

Lemma nth_error_map_lt {A B : Type} (f : A -> B) (l : list A) (i : nat)
    (d : A) :
  i < List.length l -> nth_error (map f l) i = Some (f (nth i l d)).
Proof.
  intros H. rewrite nth_error_map.
  destruct (nth_error l i) as [a |] eqn:E.
  - now rewrite (nth_error_some_nth _ _ _ _ E).
  - apply nth_error_None in E. lia.
Qed.

Lemma qualifies_inr_field (gene_upper : string) (line : list string)
    (b : bool) :
  qualifies gene_upper line = inr b -> exists l1, nth_error line 1 = Some l1.
Proof.
  unfold qualifies, index.
  destruct (nth_error line 1) as [l1 |]; [eauto | discriminate].
Qed.

Lemma qualifies_other_field (gene_upper : string) (line : list string)
    (l1 : string) :
  nth_error line 1 = Some l1 -> l1 <> gene_upper ->
  qualifies gene_upper line = inr false.
Proof.
  intros H1 Hne. unfold qualifies, index. rewrite H1. mred.
  destruct (String.eqb_spec gene_upper l1); [congruence | reflexivity].
Qed.

(** The run of one gene [G] that occurs [k] times among the cluster rows
    and has [q] passing reference rows, no other cluster gene matching any
    reference row: each of the [k] occurrences of [G] in the gene list
    yields [q] AnnotationRows, and each of the [k] cluster rows of [G] is
    joined with all of them. *)
Lemma run_single_gene_length (cluster_file annotation_file G : string)
    (genes : list string) (content : list (list string)) :
  let table := read_table TAB annotation_file in
  extract_from_seurat cluster_file = inr (genes, content) ->
  (forall line, In line table -> exists b, qualifies (upper G) line = inr b) ->
  (forall g line, In g genes -> g <> G -> In line table ->
     nth_error line 1 <> Some (upper g)) ->
  exists final_list final_list_excel_version,
    run cluster_file annotation_file
    = inr (final_list, final_list_excel_version) /\
    List.length final_list
    = count_occ string_dec genes G
      * (count_occ string_dec genes G
         * List.length (filter (passes G) table)) /\
    List.length final_list_excel_version = List.length final_list.
Proof.
  intros table Hext HG Hother.
  assert (forall g, In g genes -> g <> G -> rows_for table g = []) as Hnone.
  { intros g Hg Hne. unfold rows_for. rewrite filter_none; [reflexivity |].
    intros line Hl. destruct (passes g line) eqn:Hp; [| reflexivity].
    apply passes_true in Hp as (l3 & x & H1 & _).
    now destruct (Hother g line Hg Hne Hl). }
  assert (annotate table genes = inr (flat_map (rows_for table) genes))
    as Hann.
  { apply annotate_total. intros g line Hg Hl.
    destruct (string_dec g G) as [-> | Hne]; [auto |].
    destruct (HG line Hl) as (b & Hb).
    destruct (qualifies_inr_field _ _ _ Hb) as (l1 & H1).
    exists false. apply qualifies_other_field with l1; [exact H1 |].
    intros ->. now apply (Hother g line Hg Hne Hl). }
  set (annots := flat_map (rows_for table) genes) in *.
  assert (List.length annots
          = count_occ string_dec genes G
            * List.length (filter (passes G) table)) as Hsize.
  { unfold annots. rewrite (length_flat_map_count _ G genes Hnone).
    unfold rows_for. now rewrite length_map. }
  assert (forall a, In a annots ->
            exists g1 g2 x,
              nth_error a 0 = Some G /\ nth_error a 1 = Some g1 /\
              nth_error a 2 = Some g2 /\ float g2 = inr x) as Hrows.
  { intros a Ha. apply (in_flat_map_only _ G genes a Hnone) in Ha.
    apply in_rows_for in Ha as (line & _ & Hp & ->).
    apply passes_true in Hp as (l3 & x & _ & H3 & Hx & _).
    exists (nth 2 line EmptyString), l3, x. cbn.
    now rewrite (nth_error_some_nth _ _ _ _ H3). }
  pose proof (extract_from_seurat_inr _ _ _ Hext) as (_ & Hlen & Hgenes).
  destruct (collect_app2_length
              (fun line =>
                 collect app2 ([], []) (emit_merge (map strip_quotes line))
                   annots)
              (fun line =>
                 if string_dec (gene_of line) G then List.length annots else 0)
              content) as ((fl & fx) & Hrun & Hfl & Hfx).
  { intros c Hc. rewrite Forall_forall in Hlen. specialize (Hlen c Hc).
    destruct (collect_app2_length
                (emit_merge (map strip_quotes c))
                (fun _ => if string_dec (gene_of c) G then 1 else 0)
                annots) as (p & Hp & Hp1 & Hp2).
    - intros a Ha. destruct (Hrows a Ha) as (g1 & g2 & x & H0 & H1 & H2 & Hx).
      rewrite (emit_merge_total (map strip_quotes c) a
                 (strip_quotes (nth 5 c EmptyString))
                 (strip_quotes (nth 6 c EmptyString))
                 (gene_of c) G g1 g2 x);
        try (apply nth_error_map_lt; lia); try assumption.
      eexists. split; [reflexivity |].
      destruct (String.eqb_spec (gene_of c) G),
        (string_dec (gene_of c) G); try congruence; auto.
    - exists p. split; [exact Hp |].
      rewrite Hp1, Hp2, list_sum_map_const.
      destruct (string_dec (gene_of c) G); lia. }
  exists fl, fx. cbn [fst snd] in Hfl, Hfx. split; [| split].
  - unfold run, gene_annotation. rewrite Hext. mred. cbn [fst snd].
    fold table. rewrite Hann. mred. now rewrite merge_collect.
  - rewrite Hfl, list_sum_count, <- Hgenes, Hsize. reflexivity.
  - congruence.
Qed.

Lemma main_run (cluster_file annotation_file : string) :
  main cluster_file annotation_file
  = (st <- run cluster_file annotation_file ;; ret (writerows TAB (snd st))).
Proof.
  unfold main, run, i_m_annotating.
  destruct (extract_from_seurat cluster_file) as [e | (genes, content)];
    mred; [reflexivity |]. cbn [fst snd].
  destruct (gene_annotation annotation_file genes); mred; reflexivity.
Qed.

(** ** One row, one gene *)

Lemma collect_ext_in {A S : Type} (op : S -> S -> S) (e : S)
    (f g : A -> Exc S) (xs : list A) :
  (forall x, In x xs -> f x = g x) -> collect op e f xs = collect op e g xs.
Proof.
  induction xs as [| x xs IH]; simpl; intros H; [reflexivity |].
  rewrite (H x) by auto. rewrite IH by auto. reflexivity.
Qed.

Lemma annotate_one (content : list (list string)) (gene : string) :
  annotate content [gene] = collect (@app _) [] (emit gene) content.
Proof.
  rewrite annotate_collect. cbn [collect].
  destruct (collect (@app _) [] (emit gene) content); mred; [reflexivity |].
  now rewrite app_nil_r.
Qed.

(** The rows of one gene, around one row of the table. *)
Lemma annotate_one_around (pre post : list (list string))
    (line : list string) (gene : string) (produced : list (list string)) :
  emit gene line = inr produced ->
  annotate (pre ++ line :: post) [gene]
  = (a <- annotate pre [gene] ;;
     b <- annotate post [gene] ;;
     ret (a ++ produced ++ b)).
Proof.
  intros He. rewrite !annotate_one.
  rewrite (collect_app (@app _) [] (@app_assoc _) (@app_nil_l _)).
  cbn [collect]. rewrite He. mred.
  destruct (collect (@app _) [] (emit gene) pre); mred; [reflexivity |].
  destruct (collect (@app _) [] (emit gene) post); mred; reflexivity.
Qed.

(** A row whose gene field is no upper-cased gene of the list is skipped by
    every pass over the table. *)
Lemma annotate_unmatched_row (pre post : list (list string))
    (line : list string) (gene_list : list string) :
  (forall gene, In gene gene_list ->
     exists l1, nth_error line 1 = Some l1 /\ l1 <> upper gene) ->
  annotate (pre ++ line :: post) gene_list = annotate (pre ++ post) gene_list.
Proof.
  intros H. rewrite !annotate_collect. apply collect_ext_in.
  intros gene Hg. destruct (H gene Hg) as (l1 & H1 & Hne).
  assert (emit gene line = inr []) as He.
  { unfold emit, annotate_line.
    now rewrite (qualifies_other_field _ _ _ H1 Hne). }
  rewrite !(collect_app (@app _) [] (@app_assoc _) (@app_nil_l _)).
  cbn [collect]. rewrite He. mred.
  destruct (collect (@app _) [] (emit gene) pre); mred; [reflexivity |].
  destruct (collect (@app _) [] (emit gene) post); mred; reflexivity.
Qed.

(** What a matched row whose expression parses yields, below and at the
    threshold. *)
Lemma emit_threshold (gene : string) (line : list string) (l2 l3 : string)
    (x : spec_float) :
  nth_error line 1 = Some (upper gene) ->
  nth_error line 2 = Some l2 ->
  nth_error line 3 = Some l3 ->
  float l3 = inr x ->
  (SFltb x one = true -> emit gene line = inr []) /\
  (SFeqb x one = true -> emit gene line = inr [[gene; l2; l3]]).
Proof.
  intros H1 H2 H3 Hx.
  unfold emit, annotate_line, qualifies, index. rewrite H1, H2, H3. mred.
  rewrite String.eqb_refl, Hx. mred. split; intros Hc.
  - now rewrite (float_lt_not_ge _ _ Hc).
  - now rewrite (float_eq_ge _ _ Hc).
Qed.

Lemma annotate_around (table pre post : list (list string))
    (line : list string) (genes_before genes_after : list string)
    (gene : string) (produced : list (list string)) :
  table = pre ++ line :: post ->
  emit gene line = inr produced ->
  annotate table (genes_before ++ gene :: genes_after)
  = (rows_before <- annotate table genes_before ;;
     a <- annotate pre [gene] ;;
     b <- annotate post [gene] ;;
     rows_after <- annotate table genes_after ;;
     ret (rows_before ++ a ++ produced ++ b ++ rows_after)).
Proof.
  intros Ht He. rewrite annotate_app.
  change (gene :: genes_after) with ([gene] ++ genes_after).
  rewrite annotate_app.
  assert (annotate table [gene]
          = (a <- annotate pre [gene] ;;
             b <- annotate post [gene] ;;
             ret (a ++ produced ++ b))) as ->.
  { rewrite Ht. now apply annotate_one_around. }
  destruct (annotate table genes_before); mred; [reflexivity |].
  destruct (annotate pre [gene]); mred; [reflexivity |].
  destruct (annotate post [gene]); mred; [reflexivity |].
  destruct (annotate table genes_after); mred; [reflexivity |].
  now rewrite <- !app_assoc.
Qed.

(** * The claims *)

(** C9. A field made of a single double quote starts and ends with a quote,
    so the comprehension that strips quotes maps it to the empty string:
    the extractor, which takes the gene from the stripped row, returns the
    empty gene symbol for a row whose field 7 is that field, and the merge
    stage, which strips each row again, joins that row with an
    AnnotationRow whose gene is the empty string. *)
Theorem C9_lone_quote_field_strips_to_empty :
  let lone := String DQUOTE EmptyString in
  startswith DQUOTE lone = true /\ endswith DQUOTE lone = true /\
  strip_quotes lone = EmptyString /\
  (forall f0 f1 f2 f3 f4 f5 f6 : string,
     extract_genes [[f0; f1; f2; f3; f4; f5; f6; lone]] = inr [EmptyString]) /\
  (forall f0 f1 f2 f3 f4 f5 f6 ct : string,
     merge [[EmptyString; ct; "2.5"%string]]
       [[f0; f1; f2; f3; f4; f5; f6; lone]]
     = inr ([mkMergedRow (strip_quotes f6) EmptyString (strip_quotes f5) ct
               (S754_finite false 5629499534213120 (-51))],
            [[strip_quotes f6; EmptyString; strip_quotes f5; ct;
              "2,5"%string]])).
Proof.
  cbv zeta. repeat split; intros; vm_compute; reflexivity.
Qed.

(** C5. For a cluster file made of a header line and N data rows, each with
    at least 8 comma-separated fields, [extract_from_seurat] returns N gene
    symbols, the quote-stripped field 7 of each data row in order, and the
    N data rows split at the commas and otherwise untouched; the header is
    discarded.  Stripping removes the two outer quotes of a quoted field
    and nothing else; a field that starts and ends with a quote is such a
    quoted field, or the single quote character, which becomes empty; a
    field that is not bounded by quotes is left as it is. *)
Theorem C5_extraction_correct (eol : newline) (header : string)
    (rows : list string) (final_newline : bool) :
  one_line header ->
  Forall one_line rows ->
  Forall (fun r => 8 <= List.length (split COMMA r)) rows ->
  let genes := map (fun r => strip_quotes (nth 7 (split COMMA r) EmptyString))
                 rows in
  let content := map (split COMMA) rows in
  extract_from_seurat (text_file eol header rows final_newline)
  = inr (genes, content) /\
  List.length genes = List.length rows /\
  List.length content = List.length rows /\
  (forall s, strip_quotes (quoted s) = s) /\
  (forall elm,
     startswith DQUOTE elm && endswith DQUOTE elm = true ->
     elm = quoted (strip_quotes elm) \/
     elm = String DQUOTE EmptyString /\ strip_quotes elm = EmptyString) /\
  (forall elm,
     startswith DQUOTE elm && endswith DQUOTE elm = false ->
     strip_quotes elm = elm).
Proof.
  intros Hh Hrows Hlen genes content.
  assert (Forall (fun r => one_line r /\ r <> EmptyString) rows) as Hne.
  { rewrite Forall_forall in *. intros r Hr. split; [auto |].
    intros ->. specialize (Hlen _ Hr). simpl in Hlen. lia. }
  split; [| split; [| split; [| split; [| split]]]].
  - unfold extract_from_seurat.
    rewrite (read_table_text_file eol final_newline COMMA header rows Hh Hne).
    rewrite extract_genes_total.
    + mred. unfold genes, content, gene_of. now rewrite map_map.
    + apply Forall_map. exact Hlen.
  - unfold genes. apply length_map.
  - unfold content. apply length_map.
  - apply strip_quotes_quoted.
  - intros elm Hb. destruct (bounded_inv elm Hb) as [-> | (s & ->)].
    + right. split; reflexivity.
    + left. now rewrite strip_quotes_quoted.
  - apply strip_quotes_unbounded.
Qed.

Lemma C5_extraction_correct_witness :
  let header := "a,b,c,d,e,f,cluster,gene"%string in
  let row := join COMMA ["1"; "c1"; "x"; "y"; "z"; "0.01"; quoted "clusterA";
                         quoted "Brca1"]%string in
  extract_from_seurat (text_file Dos header [row; row] false)
  = inr (["Brca1"; "Brca1"]%string, [split COMMA row; split COMMA row]).
Proof.
  intros header row.
  refine (proj1 (C5_extraction_correct Dos header [row; row] false _ _ _)).
  - split; reflexivity.
  - repeat constructor.
  - repeat constructor.
Defined.

(** C8. On ASCII input, whenever the annotator returns, its AnnotationRows
    are the concatenation, over the gene list in its order, of one group per
    gene occurrence; the group of a gene is made of the reference rows that
    pass the test for it, in the order of the reference file, each turned
    into the triple of the gene as given, the cell type and the
    expression. *)
Theorem C8_annotation_order (file : string) (gene_list : list string)
    (out : list (list string)) :
  is_ascii file -> Forall is_ascii gene_list ->
  gene_annotation file gene_list = inr out ->
  out = List.concat (map (fun gene =>
                       map (annotation_row gene)
                         (filter (passes gene) (read_table TAB file)))
                  gene_list).
Proof.
  unfold gene_annotation. intros _ _ H. apply annotate_inr in H.
  now rewrite H, flat_map_concat_map.
Qed.

Lemma C8_annotation_order_witness :
  let file :=
    text_file Unix "id"
      [join TAB ["r1"; "B"; "T-cell"; "2.5"];
       join TAB ["r2"; "A"; "B-cell"; "1.0"];
       join TAB ["r3"; "B"; "NK-cell"; "0.5"];
       join TAB ["r4"; "B"; "Mast"; "7"]]%string true in
  [["b"; "T-cell"; "2.5"]; ["b"; "Mast"; "7"]; ["a"; "B-cell"; "1.0"];
   ["b"; "T-cell"; "2.5"]; ["b"; "Mast"; "7"]]%string
  = List.concat (map (fun gene =>
                   map (annotation_row gene)
                     (filter (passes gene) (read_table TAB file)))
              ["b"; "a"; "b"]%string).
Proof.
  intros file.
  apply (C8_annotation_order file ["b"; "a"; "b"]%string).
  - reflexivity.
  - repeat constructor.
  - vm_compute. reflexivity.
Defined.

(** C10. The annotator distributes over the concatenation of gene lists,
    exceptions included: annotating [xs ++ ys] is annotating [xs], then
    [ys], and appending the results.  Hence, in a run that returns, an
    AnnotationRow of a gene occurs in the output as many times as it occurs
    in the output for that gene alone, times the number of occurrences of
    the gene in the gene list. *)
Theorem C10_annotation_distributes (file : string) :
  (forall xs ys : list string,
     gene_annotation file (xs ++ ys)
     = (a <- gene_annotation file xs ;;
        b <- gene_annotation file ys ;;
        ret (a ++ b))) /\
  (forall (gene_list : list string) (gene : string)
          (out rows : list (list string)) (row : list string),
     gene_annotation file gene_list = inr out ->
     gene_annotation file [gene] = inr rows ->
     In row rows ->
     count_occ row_eq_dec out row
     = count_occ string_dec gene_list gene * count_occ row_eq_dec rows row).
Proof.
  unfold gene_annotation. set (content := read_table TAB file).
  split; [apply annotate_app |].
  intros gene_list gene out rows row Hout Hrows Hrow.
  apply annotate_single in Hrows. subst rows.
  revert out Hout. induction gene_list as [| g gs IH]; intros out Hout.
  - injection Hout as <-. reflexivity.
  - change (g :: gs) with ([g] ++ gs) in Hout. rewrite annotate_app in Hout.
    apply bind_inr in Hout as (a & Ha & Hout).
    apply bind_inr in Hout as (b & Hb & Hout). injection Hout as <-.
    apply annotate_single in Ha. subst a.
    rewrite count_occ_app, (IH b Hb). cbn [count_occ].
    destruct (string_dec g gene) as [-> | Hne]; [lia |].
    rewrite (proj1 (count_occ_not_In row_eq_dec _ row)); [lia |].
    intros Hin. apply in_rows_for in Hin as (l & _ & _ & ->).
    apply in_rows_for in Hrow as (l' & _ & _ & Heq).
    injection Heq as -> _ _. now apply Hne.
Qed.

Lemma C10_annotation_distributes_witness :
  let file :=
    text_file Unix "id"
      [join TAB ["r1"; "B"; "T-cell"; "2.5"];
       join TAB ["r2"; "A"; "B-cell"; "1.0"];
       join TAB ["r4"; "B"; "Mast"; "7"]]%string true in
  count_occ row_eq_dec
    [["b"; "T-cell"; "2.5"]; ["b"; "Mast"; "7"]; ["a"; "B-cell"; "1.0"];
     ["b"; "T-cell"; "2.5"]; ["b"; "Mast"; "7"]]%string
    ["b"; "Mast"; "7"]%string
  = count_occ string_dec ["b"; "a"; "b"]%string "b"%string
    * count_occ row_eq_dec [["b"; "T-cell"; "2.5"]; ["b"; "Mast"; "7"]]%string
        ["b"; "Mast"; "7"]%string.
Proof.
  intros file.
  apply (proj2 (C10_annotation_distributes file)).
  - vm_compute. reflexivity.
  - vm_compute. reflexivity.
  - right. left. reflexivity.
Defined.

(** C1, as the code has it.  Only the input gene is upper-cased; the gene
    field of a reference row is compared as it is stored.  In a run of the
    annotator on ASCII input that returns: a reference row whose expression passes the
    threshold yields an AnnotationRow for every gene of the list whose
    upper-cased symbol equals the gene field of the row, and every
    AnnotationRow of the output comes from a gene of the list and a
    reference row whose gene field is exactly the upper-cased gene. *)
Theorem C1_gene_match_upper_cases_input_only (file : string)
    (gene_list : list string) (out : list (list string)) :
  is_ascii file -> Forall is_ascii gene_list ->
  gene_annotation file gene_list = inr out ->
  (forall (gene : string) (line : list string) (f1 f2 f3 : string)
          (x : spec_float),
     In gene gene_list -> In line (read_table TAB file) ->
     nth_error line 1 = Some f1 -> nth_error line 2 = Some f2 ->
     nth_error line 3 = Some f3 ->
     float f3 = inr x -> float_ge x one = true ->
     upper gene = f1 ->
     In [gene; f2; f3] out) /\
  (forall row : list string,
     In row out ->
     exists (gene : string) (line : list string),
       In gene gene_list /\ In line (read_table TAB file) /\
       nth_error line 1 = Some (upper gene) /\
       row = annotation_row gene line).
Proof.
  unfold gene_annotation. intros _ _ H. apply annotate_inr in H. subst out.
  split.
  - intros gene line f1 f2 f3 x Hg Hl H1 H2 H3 Hx Hge Hup.
    apply in_flat_map. exists gene. split; [exact Hg |].
    apply in_rows_for. exists line. split; [exact Hl |]. split.
    + apply passes_true. exists f3, x. subst f1. auto.
    + unfold annotation_row.
      now rewrite (nth_error_some_nth _ _ _ _ H2),
        (nth_error_some_nth _ _ _ _ H3).
  - intros row Hin. apply in_flat_map in Hin as (gene & Hg & Hin).
    apply in_rows_for in Hin as (line & Hl & Hp & ->).
    apply passes_true in Hp as (l3 & x & H1 & _).
    exists gene, line. auto.
Qed.

Lemma C1_gene_match_upper_cases_input_only_witness :
  let file :=
    text_file Unix "id" [join TAB ["x"; "BRCA1"; "T-cell"; "2.5"]]%string true in
  In ["brca1"; "T-cell"; "2.5"]%string [["brca1"; "T-cell"; "2.5"]%string].
Proof.
  intros file.
  refine (proj1 (C1_gene_match_upper_cases_input_only file ["brca1"%string]
                   [["brca1"; "T-cell"; "2.5"]%string]
                   ltac:(reflexivity) ltac:(repeat constructor) _)
            "brca1"%string ["x"; "BRCA1"; "T-cell"; "2.5"]%string
            "BRCA1"%string "T-cell"%string "2.5"%string
            (S754_finite false 5629499534213120 (-51)) _ _ _ _ _ _ _ _);
    try (vm_compute; reflexivity).
  - left. reflexivity.
  - left. reflexivity.
Defined.

(** C1, as stated, fails: the gene symbols "brca1" and "BRCA1" are equal up
    to letter case and the expression 2.5 passes the threshold, yet the
    reference entry "brca1" yields no AnnotationRow for the input gene
    "BRCA1". *)
Lemma C1_counterexample :
  let file :=
    text_file Unix "id" [join TAB ["x"; "brca1"; "T-cell"; "2.5"]]%string true in
  upper "brca1" = upper "BRCA1" /\
  read_table TAB file = [["x"; "brca1"; "T-cell"; "2.5"]%string] /\
  qualifies "brca1" ["x"; "brca1"; "T-cell"; "2.5"]%string = inr true /\
  gene_annotation file ["BRCA1"%string] = inr [].
Proof.
  cbv zeta. repeat split; vm_compute; reflexivity.
Qed.

(** C3, as the code has it.  The expression field is parsed only for a row
    whose gene field equals the upper-cased input gene.  On ASCII input, take
    a row of the table whose expression field does not parse as a float.
    If some gene of the list, upper-cased, equals the gene field of that
    row, then [gene_annotation] raises; when moreover every row of the table
    has at least 4 fields, the exception is the [ValueError] of [float].
    If instead the row has a gene field that is the upper-cased form of no
    gene of the list, the row is never parsed and causes no failure:
    [gene_annotation] does on the file, result or exception, what it does on
    a file with the same table less that row. *)
Theorem C3_unparsable_expression_of_matched_row_raises (file : string)
    (gene_list : list string) (line : list string) (l3 : string) :
  is_ascii file -> Forall is_ascii gene_list ->
  In line (read_table TAB file) ->
  nth_error line 3 = Some l3 ->
  float l3 = inl ValueError ->
  (forall gene : string,
     In gene gene_list ->
     nth_error line 1 = Some (upper gene) ->
     (exists e, gene_annotation file gene_list = inl e) /\
     (Forall (fun l => 4 <= List.length l) (read_table TAB file) ->
      gene_annotation file gene_list = inl ValueError)) /\
  ((forall gene : string,
      In gene gene_list ->
      exists l1, nth_error line 1 = Some l1 /\ l1 <> upper gene) ->
   forall (pre post : list (list string)) (file' : string),
     read_table TAB file = pre ++ line :: post ->
     read_table TAB file' = pre ++ post ->
     gene_annotation file gene_list = gene_annotation file' gene_list).
Proof.
  unfold gene_annotation. set (content := read_table TAB file).
  intros _ _ Hl H3 Hf. split.
  - intros gene Hg H1.
    assert (exists e, annotate content gene_list = inl e) as (e & He).
    { unfold annotate. apply for_raises with (x := gene); [| exact Hg].
      intros acc. apply for_raises with (x := line); [| exact Hl].
      now apply annotate_line_raises with l3. }
    split; [now exists e |].
    intros Hlen. rewrite He. f_equal. revert He. unfold annotate.
    apply (for_inl_kind (fun e => e = ValueError)). intros g acc e' _.
    apply (for_inl_kind (fun e => e = ValueError)). intros l acc' e'' Hin.
    apply annotate_line_inl. rewrite Forall_forall in Hlen. auto.
  - intros Hno pre post file' -> ->. now apply annotate_unmatched_row.
Qed.

Lemma C3_unparsable_expression_of_matched_row_raises_witness :
  let bad := ["x"; "BRCA1"; "T-cell"; "n/a"]%string in
  let good := ["y"; "TP53"; "B-cell"; "3.5"]%string in
  let file := text_file Unix "id" [join TAB good; join TAB bad] true in
  let file' := text_file Unix "id" [join TAB good] true in
  gene_annotation file ["TP53"; "Brca1"]%string = inl ValueError /\
  gene_annotation file ["Tp53"; "Actb"]%string
  = gene_annotation file' ["Tp53"; "Actb"]%string.
Proof.
  intros bad good file file'. split.
  - refine (proj2 (proj1 (C3_unparsable_expression_of_matched_row_raises
                            file ["TP53"; "Brca1"]%string bad "n/a"%string
                            _ _ _ _ _) "Brca1"%string _ _) _).
    + reflexivity.
    + repeat constructor.
    + right. left. reflexivity.
    + reflexivity.
    + reflexivity.
    + right. left. reflexivity.
    + reflexivity.
    + vm_compute. repeat constructor.
  - refine (proj2 (C3_unparsable_expression_of_matched_row_raises
                     file ["Tp53"; "Actb"]%string bad "n/a"%string
                     _ _ _ _ _) _ [good] [] file' _ _).
    + reflexivity.
    + repeat constructor.
    + right. left. reflexivity.
    + reflexivity.
    + reflexivity.
    + intros gene [<- | [<- | []]]; exists "BRCA1"%string;
        (split; [reflexivity | discriminate]).
    + vm_compute. reflexivity.
    + vm_compute. reflexivity.
Defined.

(** C3, as stated, fails: the expression field "n/a" of the only row of
    the table does not parse as a float, the gene list is not empty, and
    [gene_annotation] returns normally, with no AnnotationRow, because the
    gene field of the row differs from the upper-cased gene. *)
Lemma C3_counterexample :
  let file :=
    text_file Unix "id" [join TAB ["x"; "BRCA1"; "T-cell"; "n/a"]]%string true in
  float "n/a" = inl ValueError /\
  In ["x"; "BRCA1"; "T-cell"; "n/a"]%string (read_table TAB file) /\
  gene_annotation file ["TP53"%string] = inr [].
Proof.
  cbv zeta. split; [reflexivity |]. split; [left |]; vm_compute; reflexivity.
Qed.

(** C6. On ASCII input, take a gene of the gene list and a row of the
    reference table whose gene field equals the upper-cased gene and whose
    expression field parses as a float.  [gene_annotation] returns the rows
    of the genes before it, then the rows of this gene from the table rows
    before this one, then what this row produces, then the rows of this gene
    from the table rows after this one, then the rows of the genes after
    it.  When the float is less than 1.0 the row produces nothing; when it
    is equal to 1.0 the row produces the AnnotationRow of the gene, the cell
    type and the expression, which is therefore in the output of every such
    run that returns. *)
Theorem C6_threshold_is_inclusive (file : string)
    (genes_before genes_after : list string) (gene : string)
    (pre post : list (list string)) (line : list string)
    (l2 l3 : string) (x : spec_float) :
  is_ascii file -> Forall is_ascii (genes_before ++ gene :: genes_after) ->
  read_table TAB file = pre ++ line :: post ->
  nth_error line 1 = Some (upper gene) ->
  nth_error line 2 = Some l2 ->
  nth_error line 3 = Some l3 ->
  float l3 = inr x ->
  let around (produced : list (list string)) :=
    (rows_before <- gene_annotation file genes_before ;;
     a <- annotate pre [gene] ;;
     b <- annotate post [gene] ;;
     rows_after <- gene_annotation file genes_after ;;
     ret (rows_before ++ a ++ produced ++ b ++ rows_after)) in
  (SFltb x one = true ->
   gene_annotation file (genes_before ++ gene :: genes_after) = around []) /\
  (SFeqb x one = true ->
   gene_annotation file (genes_before ++ gene :: genes_after)
   = around [[gene; l2; l3]]) /\
  (SFeqb x one = true ->
   forall out : list (list string),
     gene_annotation file (genes_before ++ gene :: genes_after) = inr out ->
     In [gene; l2; l3] out).
Proof.
  intros _ _ Ht H1 H2 H3 Hx around.
  destruct (emit_threshold gene line l2 l3 x H1 H2 H3 Hx) as (Hlt & Heq).
  assert (forall produced,
            emit gene line = inr produced ->
            gene_annotation file (genes_before ++ gene :: genes_after)
            = around produced) as Hrun.
  { intros produced He. unfold around, gene_annotation.
    now apply annotate_around with line. }
  split; [auto |]. split; [auto |].
  intros Hc out Hout. rewrite (Hrun _ (Heq Hc)) in Hout. unfold around in Hout.
  apply bind_inr in Hout as (r1 & _ & Hout).
  apply bind_inr in Hout as (a & _ & Hout).
  apply bind_inr in Hout as (b & _ & Hout).
  apply bind_inr in Hout as (r2 & _ & Hout). injection Hout as <-.
  apply in_or_app. right. apply in_or_app. right. now left.
Qed.

Lemma C6_threshold_is_inclusive_witness :
  let tp53 := ["E0"; "TP53"; "T-cells"; "3"]%string in
  let at_one := ["E1"; "BRCA1"; "T-cell"; "1.0"]%string in
  let below := ["E1"; "BRCA1"; "B-cell"; "0.999"]%string in
  let file :=
    text_file Unix "id" [join TAB tp53; join TAB at_one; join TAB below]
      true in
  gene_annotation file ["Tp53"; "Brca1"]%string
  = inr [["Tp53"; "T-cells"; "3"]; ["Brca1"; "T-cell"; "1.0"]]%string /\
  In ["Brca1"; "T-cell"; "1.0"]%string
    [["Tp53"; "T-cells"; "3"]; ["Brca1"; "T-cell"; "1.0"]]%string.
Proof.
  intros tp53 at_one below file. split.
  - refine (eq_trans
              (proj1 (C6_threshold_is_inclusive file ["Tp53"%string] []
                        "Brca1"%string [tp53; at_one] [] below
                        "B-cell"%string "0.999"%string
                        (S754_finite false 8998192055486251 (-53))
                        _ _ _ _ _ _ _) _) _);
      try (vm_compute; reflexivity); repeat constructor.
  - refine (proj2 (proj2 (C6_threshold_is_inclusive file ["Tp53"%string] []
                            "Brca1"%string [tp53] [below] at_one
                            "T-cell"%string "1.0"%string
                            (S754_finite false 4503599627370496 (-52))
                            _ _ _ _ _ _ _)) _ _ _);
      try (vm_compute; reflexivity); repeat constructor.
Defined.

(** C4. In every run that completes, the text written is made of the
    export rows, and every logical row emitted alongside has as gene the
    quote-stripped field 7 of some row of the cluster file and as
    expression a float that is at least 1.0; each export row carries the
    fields of its logical row, its expression being a string that parses to
    that float, with the decimal point replaced by a comma. *)
Theorem C4_merged_rows_invariant (cluster_file annotation_file text : string) :
  main cluster_file annotation_file = inr text ->
  exists (final_list : list MergedRow)
         (final_list_excel_version : list (list string)),
    run cluster_file annotation_file
    = inr (final_list, final_list_excel_version) /\
    text = writerows TAB final_list_excel_version /\
    Forall (fun r =>
              (exists line,
                 In line (read_table COMMA cluster_file) /\
                 gene r = strip_quotes (nth 7 line EmptyString)) /\
              float_ge (nTPM r) one = true)
      final_list /\
    Forall2 (fun r row =>
               exists e,
                 float e = inr (nTPM r) /\
                 row = [cluster r; gene r; pvalue_a r; cell_type r;
                        replace DOT COMMA e])
      final_list final_list_excel_version.
Proof.
  unfold main, run, i_m_annotating. intros H.
  apply bind_inr in H as ((genes & content) & Hext & H).
  apply bind_inr in H as (annots & Hann & H).
  apply bind_inr in H as ((fl & fx) & Hmerge & H). injection H as <-.
  exists fl, fx. rewrite Hext. mred. cbn [fst snd]. rewrite Hann. mred.
  split; [exact Hmerge |]. split; [reflexivity |].
  apply extract_from_seurat_inr in Hext as (-> & Hlen & ->).
  unfold gene_annotation in Hann. apply annotate_inr in Hann.
  rewrite merge_collect in Hmerge. split.
  - apply Forall_forall. intros r Hr.
    destruct (collect_app2_fst_in _ _ _ _ Hmerge Hr)
      as (c & p & Hc & Hp & Hrp).
    destruct (collect_app2_fst_in _ _ _ _ Hp Hrp)
      as (a & p' & Ha & Hp' & Hrp').
    apply emit_merge_inr in Hp' as (l7 & g0 & H7 & H0 & [(_ & ->) | Hm]);
      [easy |].
    destruct Hm as (_ & l5 & l6 & g1 & g2 & x & _ & _ & _ & H2 & Hx & ->).
    destruct Hrp' as [<- | []]. cbn [gene nTPM]. split.
    + exists c. split; [exact Hc |].
      rewrite nth_error_map in H7.
      destruct (nth_error c 7) as [c7 |] eqn:E; [| discriminate].
      injection H7 as <-. now rewrite (nth_error_some_nth _ _ _ _ E).
    + subst annots. apply in_flat_map in Ha as (g & _ & Ha).
      apply in_rows_for in Ha as (line & _ & Hpass & ->).
      apply passes_true in Hpass as (l3 & x' & _ & H3 & Hx' & Hge).
      cbn in H2. injection H2 as <-.
      rewrite (nth_error_some_nth _ _ _ _ H3) in Hx. congruence.
  - change fl with (fst (fl, fx)). change fx with (snd (fl, fx)) at 2.
    revert Hmerge. apply collect_app2_Forall2. intros c p _.
    apply collect_app2_Forall2. intros a p' _ Hp'.
    apply emit_merge_inr in Hp' as (l7 & g0 & _ & _ & [(_ & ->) | Hm]);
      [constructor |].
    destruct Hm as (_ & l5 & l6 & g1 & g2 & x & _ & _ & _ & _ & Hx & ->).
    repeat constructor. exists g2. auto.
Qed.

Lemma C4_merged_rows_invariant_witness :
  let cluster_file :=
    text_file Unix "h"
      [join COMMA ["1"; "c1"; "x"; "y"; "0.01"; "0.01"; quoted "clusterA";
                   quoted "BRCA1"]]%string true in
  let annotation_file :=
    text_file Unix "id" [join TAB ["x"; "BRCA1"; "T-cell"; "2.5"]]%string true in
  exists (final_list : list MergedRow)
         (final_list_excel_version : list (list string)),
    run cluster_file annotation_file
    = inr (final_list, final_list_excel_version) /\
    (join TAB ["clusterA"; "BRCA1"; "0.01"; "T-cell"; "2,5"]
     ++ String CR (String LF EmptyString))%string
    = writerows TAB final_list_excel_version /\
    Forall (fun r =>
              (exists line,
                 In line (read_table COMMA cluster_file) /\
                 gene r = strip_quotes (nth 7 line EmptyString)) /\
              float_ge (nTPM r) one = true)
      final_list /\
    Forall2 (fun r row =>
               exists e,
                 float e = inr (nTPM r) /\
                 row = [cluster r; gene r; pvalue_a r; cell_type r;
                        replace DOT COMMA e])
      final_list final_list_excel_version.
Proof.
  intros cluster_file annotation_file.
  apply (C4_merged_rows_invariant cluster_file annotation_file).
  vm_compute. reflexivity.
Defined.

(** C7. The cluster file is a header and one row whose fields 5, 6 and 7
    are the quoted strings 0.01, clusterA and BRCA1; the reference file is
    a header and the one row x, BRCA1, T-cell, 2.5 separated by tabs.
    Whatever the headers, the first five cluster fields and the first
    reference field are, the run writes exactly one line: clusterA, BRCA1,
    0.01, T-cell and 2,5 separated by tabs, ended by CR LF. *)
Theorem C7_end_to_end_example
    (eol eol' : newline) (header f0 f1 f2 f3 f4 ref_header x : string)
    (final_newline final_newline' : bool) :
  one_line header ->
  Forall (fun f => no_char COMMA f /\ one_line f) [f0; f1; f2; f3; f4] ->
  one_line ref_header ->
  no_char TAB x -> one_line x ->
  main
    (text_file eol header
       [join COMMA [f0; f1; f2; f3; f4; quoted "0.01"; quoted "clusterA";
                    quoted "BRCA1"]%string] final_newline)
    (text_file eol' ref_header
       [join TAB [x; "BRCA1"; "T-cell"; "2.5"]%string] final_newline')
  = inr (join TAB ["clusterA"; "BRCA1"; "0.01"; "T-cell"; "2,5"]
         ++ String CR (String LF EmptyString))%string.
Proof.
  intros Hh Hf Hr Hx Hx1.
  assert (Forall (no_char COMMA) [f0; f1; f2; f3; f4]) as Hcomma.
  { eapply Forall_impl; [| exact Hf]. now intros f (? & _). }
  assert (Forall one_line [f0; f1; f2; f3; f4]) as Hone.
  { eapply Forall_impl; [| exact Hf]. now intros f (_ & ?). }
  unfold main, extract_from_seurat, gene_annotation.
  rewrite !read_table_text_file; try assumption.
  - cbn [map]. rewrite !split_join.
    + vm_compute. reflexivity.
    + constructor; [exact Hx |]. repeat constructor.
    + repeat (apply Forall_cons_iff; split;
              [now apply (Forall_inv Hcomma) |
               apply Forall_inv_tail in Hcomma]).
      repeat constructor.
  - constructor; [| constructor]. split; [| apply join_two_nonempty].
    apply one_line_join; try reflexivity.
    constructor; [exact Hx1 |]. repeat constructor.
  - constructor; [| constructor]. split; [| apply join_two_nonempty].
    apply one_line_join; try reflexivity.
    repeat (apply Forall_cons_iff; split;
            [now apply (Forall_inv Hone) | apply Forall_inv_tail in Hone]).
    repeat constructor.
Qed.

Lemma C7_end_to_end_example_witness :
  main
    (text_file Dos "id,x,avg,pct1,pct2,p_val_adj,cluster,gene"
       [join COMMA ["1"; "c1"; "2.1"; "0.9"; "0.01"; quoted "0.01";
                    quoted "clusterA"; quoted "BRCA1"]%string] true)
    (text_file Unix "Gene"
       [join TAB ["x"; "BRCA1"; "T-cell"; "2.5"]%string] false)
  = inr (join TAB ["clusterA"; "BRCA1"; "0.01"; "T-cell"; "2,5"]
         ++ String CR (String LF EmptyString))%string.
Proof.
  apply (C7_end_to_end_example Dos Unix
           "id,x,avg,pct1,pct2,p_val_adj,cluster,gene"
           "1" "c1" "2.1" "0.9" "0.01" "Gene" "x" true false).
  - split; reflexivity.
  - repeat constructor.
  - split; reflexivity.
  - reflexivity.
  - split; reflexivity.
Defined.

(** C2, as the code has it.  The gene list holds one entry per cluster row,
    so a gene of 2 cluster rows is annotated twice.  In a run on ASCII files
    where one
    gene symbol appears in exactly 2 cluster rows and has exactly 3
    qualifying reference rows, where no other cluster gene matches any
    reference row, and where the test of the annotator raises on no
    reference row, the annotator returns 6 AnnotationRows, the merge stage
    joins each of the 2 cluster rows with all 6, and the run writes the 12
    rows so produced. *)
Theorem C2_merge_expansion_counts_gene_list_duplicates
    (cluster_file annotation_file G : string) (genes : list string)
    (content : list (list string)) :
  is_ascii cluster_file -> is_ascii annotation_file ->
  extract_from_seurat cluster_file = inr (genes, content) ->
  count_occ string_dec genes G = 2 ->
  (forall line, In line (read_table TAB annotation_file) ->
     exists b, qualifies (upper G) line = inr b) ->
  List.length (filter (passes G) (read_table TAB annotation_file)) = 3 ->
  (forall g line, In g genes -> g <> G ->
     In line (read_table TAB annotation_file) ->
     nth_error line 1 <> Some (upper g)) ->
  exists (genes_tissues : list (list string)) (final_list : list MergedRow)
         (final_list_excel_version : list (list string)),
    gene_annotation annotation_file genes = inr genes_tissues /\
    List.length genes_tissues = 6 /\
    run cluster_file annotation_file
    = inr (final_list, final_list_excel_version) /\
    List.length final_list = 12 /\
    List.length final_list_excel_version = 12 /\
    main cluster_file annotation_file
    = inr (writerows TAB final_list_excel_version).
Proof.
  intros _ _ Hext Hk HG Hq Hother.
  destruct (run_single_gene_length cluster_file annotation_file G genes
              content Hext HG Hother) as (fl & fx & Hrun & Hfl & Hfx).
  rewrite Hk, Hq in Hfl. change (2 * (2 * 3)) with 12 in Hfl.
  rewrite Hfl in Hfx.
  pose proof Hrun as Hann. unfold run in Hann. rewrite Hext in Hann.
  apply bind_inr in Hann as (r & Hr & Hann). injection Hr as <-.
  cbn [fst snd] in Hann. apply bind_inr in Hann as (annots & Hann & _).
  exists annots, fl, fx. split; [exact Hann |]. split.
  - unfold gene_annotation in Hann. apply annotate_inr in Hann. subst annots.
    rewrite (length_flat_map_count _ G genes).
    + unfold rows_for. rewrite length_map, Hk, Hq. reflexivity.
    + intros g Hg Hne. unfold rows_for. rewrite filter_none; [reflexivity |].
      intros line Hl. destruct (passes g line) eqn:Hp; [| reflexivity].
      apply passes_true in Hp as (l3 & x & H1 & _).
      now destruct (Hother g line Hg Hne Hl).
  - split; [exact Hrun |]. split; [exact Hfl |]. split; [exact Hfx |].
    rewrite main_run, Hrun. reflexivity.
Qed.

Lemma C2_merge_expansion_counts_gene_list_duplicates_witness :
  let row c g :=
    join COMMA ["1"; "0"; "2.1"; "0.9"; "0.1"; "0.01"; quoted c;
                quoted g]%string in
  let cluster_file :=
    text_file Unix "id,p_val,avg_log2FC,pct.1,pct.2,p_val_adj,cluster,gene"
      [row "c0" "Actb"; row "c0" "Gapdh"; row "c1" "Actb"]%string true in
  let annotation_file :=
    text_file Unix "Gene"
      [join TAB ["E1"; "ACTB"; "T-cells"; "2.5"];
       join TAB ["E1"; "ACTB"; "B-cells"; "1.0"];
       join TAB ["E1"; "ACTB"; "Adipocytes"; "0.4"];
       join TAB ["E1"; "ACTB"; "NK-cells"; "31.7"];
       join TAB ["E2"; "TP53"; "T-cells"; "8.0"]]%string true in
  exists (genes_tissues : list (list string)) (final_list : list MergedRow)
         (final_list_excel_version : list (list string)),
    gene_annotation annotation_file ["Actb"; "Gapdh"; "Actb"]%string
    = inr genes_tissues /\
    List.length genes_tissues = 6 /\
    run cluster_file annotation_file
    = inr (final_list, final_list_excel_version) /\
    List.length final_list = 12 /\
    List.length final_list_excel_version = 12 /\
    main cluster_file annotation_file
    = inr (writerows TAB final_list_excel_version).
Proof.
  intros row cluster_file annotation_file.
  refine (C2_merge_expansion_counts_gene_list_duplicates
            cluster_file annotation_file "Actb"%string
            ["Actb"; "Gapdh"; "Actb"]%string
            (read_table COMMA cluster_file) _ _ _ _ _ _ _).
  - reflexivity.
  - reflexivity.
  - vm_compute. reflexivity.
  - vm_compute. reflexivity.
  - intros line Hl. vm_compute in Hl.
    repeat (destruct Hl as [<- | Hl]; [eexists; vm_compute; reflexivity |]).
    destruct Hl.
  - vm_compute. reflexivity.
  - intros g line Hg Hne Hl. vm_compute in Hl.
    destruct Hg as [<- | [<- | [<- | []]]]; try (now destruct Hne);
      repeat (destruct Hl as [<- | Hl]; [discriminate |]); destruct Hl.
Defined.

(** C2, as stated, fails: the gene Actb appears in exactly 2 cluster rows
    and has exactly 3 qualifying reference rows, of 3 distinct cell types,
    no other cluster gene matches any reference row, and the merge stage
    produces 12 MergedRows, not 6. *)
Lemma C2_counterexample :
  let row c g :=
    join COMMA ["1"; "0"; "2.1"; "0.9"; "0.1"; "0.01"; quoted c;
                quoted g]%string in
  let cluster_file :=
    text_file Unix "id,p_val,avg_log2FC,pct.1,pct.2,p_val_adj,cluster,gene"
      [row "c0" "Actb"; row "c0" "Gapdh"; row "c1" "Actb"]%string true in
  let annotation_file :=
    text_file Unix "Gene"
      [join TAB ["E1"; "ACTB"; "T-cells"; "2.5"];
       join TAB ["E1"; "ACTB"; "B-cells"; "1.0"];
       join TAB ["E1"; "ACTB"; "NK-cells"; "31.7"];
       join TAB ["E2"; "TP53"; "T-cells"; "8.0"]]%string true in
  let table := read_table TAB annotation_file in
  map gene_of (read_table COMMA cluster_file)
  = ["Actb"; "Gapdh"; "Actb"]%string /\
  map (fun line => nth 2 line EmptyString) (filter (passes "Actb") table)
  = ["T-cells"; "B-cells"; "NK-cells"]%string /\
  filter (passes "Gapdh") table = [] /\
  filter (fun line => String.eqb (nth 1 line EmptyString) "GAPDH") table
  = [] /\
  exists final_list final_list_excel_version,
    run cluster_file annotation_file
    = inr (final_list, final_list_excel_version) /\
    List.length final_list = 12 /\
    List.length final_list <> 6.
Proof.
  cbv zeta. repeat split; try (vm_compute; reflexivity).
  eexists. eexists. split; [vm_compute; reflexivity |].
  split; [reflexivity | discriminate].
Qed.

(** * Further properties of the code *)

(** ** Failures of the extractor *)

Lemma index_raises_IndexError {A : Type} (l : list A) (i : nat) (e : exn) :
  index l i = inl e -> e = IndexError.
Proof.
  unfold index. destruct (nth_error l i); [discriminate |].
  now intros [= <-].
Qed.

Lemma index_short {A : Type} (l : list A) (i : nat) :
  List.length l <= i -> index l i = inl IndexError.
Proof.
  intros H. unfold index.
  now rewrite (proj2 (nth_error_None l i) H).
Qed.

Lemma extract_genes_short (content : list (list string)) :
  Exists (fun line => List.length line < 8) content ->
  extract_genes content = inl IndexError.
Proof.
  intros H. apply Exists_exists in H as (line & Hin & Hlen).
  assert (exists e, extract_genes content = inl e) as (e & He).
  { unfold extract_genes. apply for_raises with (x := line); [| exact Hin].
    intros acc. exists IndexError.
    rewrite index_short; [reflexivity |]. rewrite length_map. lia. }
  rewrite He. f_equal. revert He. unfold extract_genes.
  apply (for_inl_kind (fun e => e = IndexError)). intros l acc e' _.
  destruct (index (map strip_quotes l) 7) as [e'' |] eqn:E; mred;
    [| discriminate].
  intros [= <-]. now apply index_raises_IndexError in E.
Qed.

Section MoreStrings.
Local Open Scope string_scope.

Lemma split_not_nil (sep : ascii) (s : string) : split sep s <> [].
Proof.
  destruct s as [| c s]; simpl; [discriminate |].
  destruct (Ascii.eqb c sep); [discriminate |].
  destruct (split sep s); discriminate.
Qed.

(** Joining the fields of a split string gives the string back. *)
Lemma join_split (sep : ascii) (s : string) : join sep (split sep s) = s.
Proof.
  induction s as [| c s IH]; [reflexivity |].
  cbn [split]. destruct (Ascii.eqb_spec c sep) as [-> | Hne].
  - pose proof (split_not_nil sep s) as Hnil.
    destruct (split sep s) as [| f fs]; [congruence |].
    cbn [join append]. cbn [join] in IH. now rewrite IH.
  - pose proof (split_not_nil sep s) as Hnil.
    destruct (split sep s) as [| f fs]; [congruence |].
    destruct fs as [| g fs]; cbn [join append] in *; now rewrite IH.
Qed.

Lemma split_no_char (sep : ascii) (s : string) :
  Forall (no_char sep) (split sep s).
Proof.
  induction s as [| c s IH]; [repeat constructor |].
  cbn [split]. destruct (Ascii.eqb_spec c sep) as [-> | Hne].
  - constructor; [reflexivity | exact IH].
  - destruct (split sep s) as [| f fs]; [repeat constructor |].
    + apply no_char_cons. split; [| reflexivity].
      apply Ascii.eqb_neq. congruence.
    + inversion IH; subst. constructor; [| assumption].
      apply no_char_cons. split; [| assumption].
      apply Ascii.eqb_neq. congruence.
Qed.

Lemma stripped_lines_join_nl (r : string) (rs : list string) :
  Forall (no_char LF) (r :: rs) ->
  map (strip LF) (lines_of (join LF (r :: rs) ++ String LF EmptyString))
  = r :: rs.
Proof.
  revert r; induction rs as [| r' rs IH]; intros r H;
    inversion H as [| ? ? Hr Hrest]; subst.
  - cbn [join]. rewrite (lines_of_app_LF _ _ Hr). cbn [lines_of map].
    now rewrite (strip_app_one _ _ Hr).
  - change (join LF (r :: r' :: rs))
      with (r ++ String LF (join LF (r' :: rs))).
    rewrite append_assoc. cbn [append].
    rewrite (lines_of_app_LF _ _ Hr). cbn [map].
    rewrite (strip_app_one _ _ Hr), (IH r' Hrest). reflexivity.
Qed.

(** The table of a file that ends with a line ending: blank lines are rows
    too. *)
Lemma read_table_text_file_nl (eol : newline) (sep : ascii) (header : string)
    (rows : list string) :
  one_line header -> Forall one_line rows ->
  read_table sep (text_file eol header rows true) = map (split sep) rows.
Proof.
  intros Hh Hrows.
  assert (Forall one_line (header :: rows)) as Hone by now constructor.
  assert (Forall (no_char LF) rows) as HLF.
  { eapply Forall_impl; [| exact Hrows]. now intros r (H & _). }
  destruct Hh as (HhLF & _).
  unfold read_table, readlines, text_file.
  rewrite (universal_newlines_lines eol true header rows Hone).
  cbn [newline_string].
  destruct rows as [| r rs].
  - cbn [join]. rewrite (lines_of_app_LF _ _ HhLF). reflexivity.
  - change (join LF (header :: r :: rs))
      with (header ++ String LF (join LF (r :: rs))).
    rewrite append_assoc. cbn [append].
    rewrite (lines_of_app_LF _ _ HhLF). cbn [map tl].
    rewrite <- (map_map (strip LF) (split sep)).
    now rewrite (stripped_lines_join_nl r rs HLF).
Qed.

End MoreStrings.

(** X1. [extract_from_seurat] returns exactly when every row after the
    header has at least 8 fields, and then returns the stripped field 7 of
    each row with the rows themselves; as soon as one row is shorter it
    raises [IndexError]. *)
Theorem X1_extract_returns_iff_eight_fields (file : string) :
  let content := read_table COMMA file in
  (Forall (fun line => 8 <= List.length line) content ->
   extract_from_seurat file = inr (map gene_of content, content)) /\
  (Exists (fun line => List.length line < 8) content ->
   extract_from_seurat file = inl IndexError).
Proof.
  intros content. unfold extract_from_seurat. fold content. split; intros H.
  - now rewrite (extract_genes_total _ H).
  - now rewrite (extract_genes_short _ H).
Qed.

Lemma X1_extract_returns_iff_eight_fields_witness :
  extract_from_seurat
    (text_file Unix "h" ["a,b,c,d,e,f,g,Actb"; "a,b,c,d,e,f,g"]%string true)
  = inl IndexError /\
  extract_from_seurat (text_file Unix "h" ["a,b,c,d,e,f,g,Actb"]%string true)
  = inr (["Actb"%string],
         [["a"; "b"; "c"; "d"; "e"; "f"; "g"; "Actb"]%string]).
Proof.
  split.
  - apply (proj2 (X1_extract_returns_iff_eight_fields
                    (text_file Unix "h"
                       ["a,b,c,d,e,f,g,Actb"; "a,b,c,d,e,f,g"]%string true))).
    vm_compute. apply Exists_cons_tl. apply Exists_cons_hd. lia.
  - apply (proj1 (X1_extract_returns_iff_eight_fields
                    (text_file Unix "h" ["a,b,c,d,e,f,g,Actb"]%string true))).
    vm_compute. repeat constructor.
Defined.

(** X2. In a cluster file that ends with a line ending, a data row with
    fewer than 8 comma-separated fields makes [extract_from_seurat] raise
    [IndexError]; a blank line, after the last row or between two rows, is
    such a row. *)
Theorem X2_short_or_blank_cluster_line_raises (eol : newline)
    (header : string) (rows : list string) (r : string) :
  one_line header -> Forall one_line rows ->
  In r rows ->
  List.length (split COMMA r) < 8 \/ r = EmptyString ->
  extract_from_seurat (text_file eol header rows true) = inl IndexError.
Proof.
  intros Hh Hrows Hin Hr. unfold extract_from_seurat.
  rewrite (read_table_text_file_nl eol COMMA header rows Hh Hrows).
  rewrite extract_genes_short; [reflexivity |].
  apply Exists_exists. exists (split COMMA r). split; [now apply in_map |].
  destruct Hr as [Hr | ->]; [exact Hr | simpl; lia].
Qed.

Lemma X2_short_or_blank_cluster_line_raises_witness :
  extract_from_seurat
    (text_file Dos "h" ["a,b,c,d,e,f,g,Actb"; ""]%string true)
  = inl IndexError.
Proof.
  apply (X2_short_or_blank_cluster_line_raises Dos "h"
           ["a,b,c,d,e,f,g,Actb"; ""]%string ""%string).
  - split; reflexivity.
  - repeat constructor.
  - right. left. reflexivity.
  - right. reflexivity.
Defined.

Lemma tl_map {A B : Type} (f : A -> B) (l : list A) :
  tl (map f l) = map f (tl l).
Proof. now destruct l. Qed.

(** X3. Joining with commas the fields of the raw rows that
    [extract_from_seurat] returns gives back the lines of the file after
    the first, without their line break: the rows lose nothing but the
    commas they were split at, and no field holds a comma. *)
Theorem X3_raw_rows_are_lossless (file : string) (genes : list string)
    (content : list (list string)) :
  extract_from_seurat file = inr (genes, content) ->
  map (join COMMA) content = tl (map (strip LF) (readlines file)) /\
  Forall (Forall (no_char COMMA)) content.
Proof.
  intros H. apply extract_from_seurat_inr in H as (-> & _ & _).
  unfold read_table. split.
  - rewrite !tl_map, !map_map. apply map_ext.
    intros l. apply join_split.
  - rewrite tl_map. apply Forall_map, Forall_forall.
    intros x _. apply split_no_char.
Qed.

Lemma X3_raw_rows_are_lossless_witness :
  let row := join COMMA ["1"; "c1"; "x"; "y"; "z"; "0.01"; quoted "clusterA";
                         quoted "Brca1"]%string in
  let file := text_file Unix "h" [row; row]%string false in
  map (join COMMA) [split COMMA row; split COMMA row]
  = tl (map (strip LF) (readlines file)) /\
  Forall (Forall (no_char COMMA)) [split COMMA row; split COMMA row].
Proof.
  intros row file.
  apply (X3_raw_rows_are_lossless file ["Brca1"; "Brca1"]%string).
  vm_compute. reflexivity.
Defined.

(** X4. A cluster file without data rows, empty or made of a header only,
    yields an empty output file whatever the reference file holds: with no
    gene to annotate no reference row is ever inspected. *)
Theorem X4_no_cluster_rows_writes_empty_file :
  (forall annotation_file : string,
     main EmptyString annotation_file = inr EmptyString) /\
  (forall (eol : newline) (header : string) (final_newline : bool)
          (annotation_file : string),
     one_line header ->
     main (text_file eol header [] final_newline) annotation_file
     = inr EmptyString).
Proof.
  split.
  - reflexivity.
  - intros eol header final_newline annotation_file Hh.
    unfold main, extract_from_seurat.
    rewrite (read_table_text_file eol final_newline COMMA header [] Hh);
      [| constructor].
    reflexivity.
Qed.

Lemma X4_no_cluster_rows_writes_empty_file_witness :
  main (text_file OldMac "id,gene" [] true) "not a table at all"
  = inr EmptyString.
Proof.
  apply (proj2 X4_no_cluster_rows_writes_empty_file).
  split; reflexivity.
Defined.

(** ** Failures of the annotator *)

Ltac mred_in H := cbv beta iota delta [bind ret raise] in H.

(** The test of the annotator is defined when the row has a gene field and,
    if that field is the upper-cased gene, an expression field that parses. *)
Lemma qualifies_defined (gene_upper : string) (line : list string) :
  (exists b, qualifies gene_upper line = inr b) <->
  exists l1,
    nth_error line 1 = Some l1 /\
    (l1 = gene_upper ->
     exists l3 x, nth_error line 3 = Some l3 /\ float l3 = inr x).
Proof.
  unfold qualifies, index. split.
  - intros (b & H).
    destruct (nth_error line 1) as [l1 |]; mred_in H; [| discriminate].
    exists l1. split; [reflexivity |]. intros ->.
    rewrite String.eqb_refl in H.
    destruct (nth_error line 3) as [l3 |]; mred_in H; [| discriminate].
    destruct (float l3) as [e | x] eqn:Hx; mred_in H; [discriminate |].
    now exists l3, x.
  - intros (l1 & -> & H). mred.
    destruct (String.eqb_spec gene_upper l1) as [<- | _]; [| now exists false].
    destruct (H eq_refl) as (l3 & x & -> & Hx). mred. rewrite Hx. mred.
    now exists (float_ge x one).
Qed.

Lemma emit_inr_qualifies (gene : string) (line : list string)
    (r : list (list string)) :
  emit gene line = inr r -> exists b, qualifies (upper gene) line = inr b.
Proof.
  unfold emit, annotate_line.
  destruct (qualifies (upper gene) line) as [e | b]; [discriminate | eauto].
Qed.

(** X5. On ASCII input [gene_annotation] returns exactly when, for every
    gene of the list and every row of the table, the row has a gene field
    (index 1) and, if that field equals the upper-cased gene, an expression
    field (index 3) that parses as a float.  A row that is too short, or a
    matched row whose expression is missing or unparsable, makes it
    raise. *)
Theorem X5_annotation_returns_iff_tests_are_defined (file : string)
    (gene_list : list string) :
  is_ascii file -> Forall is_ascii gene_list ->
  (exists out, gene_annotation file gene_list = inr out) <->
  (forall gene line,
     In gene gene_list -> In line (read_table TAB file) ->
     exists l1,
       nth_error line 1 = Some l1 /\
       (l1 = upper gene ->
        exists l3 x, nth_error line 3 = Some l3 /\ float l3 = inr x)).
Proof.
  intros _ _.
  unfold gene_annotation. set (content := read_table TAB file). split.
  - intros (out & H) gene line Hg Hl. apply qualifies_defined.
    rewrite annotate_collect in H.
    destruct (collect_inr_each _ _ _ _ _ H gene Hg) as (r & Hr).
    destruct (collect_inr_each _ _ _ _ _ Hr line Hl) as (r' & Hr').
    now apply emit_inr_qualifies with r'.
  - intros H. eexists. apply annotate_total.
    intros gene line Hg Hl. apply qualifies_defined. auto.
Qed.

Lemma X5_annotation_returns_iff_tests_are_defined_witness :
  let file :=
    text_file Unix "id"
      [join TAB ["x"; "BRCA1"; "T-cell"; "2.5"];
       join TAB ["y"; "TP53"; "B-cell"; "n/a"]]%string true in
  exists out, gene_annotation file ["Brca1"; "Actb"]%string = inr out.
Proof.
  intros file.
  apply (proj2 (X5_annotation_returns_iff_tests_are_defined file
                  ["Brca1"; "Actb"]%string
                  ltac:(reflexivity) ltac:(repeat constructor))).
  intros gene line Hg Hl. vm_compute in Hl.
  destruct Hl as [<- | [<- | []]].
  - exists "BRCA1"%string. split; [reflexivity |]. intros _.
    exists "2.5"%string, (S754_finite false 5629499534213120 (-51)).
    split; reflexivity.
  - exists "TP53"%string. split; [reflexivity |].
    destruct Hg as [<- | [<- | []]]; discriminate.
Defined.

(** X6. In a reference file that ends with a line ending, a line without a
    tab, a blank line among them, has no gene field: [gene_annotation]
    raises on it as soon as the gene list is not empty, whatever the genes
    are. *)
Theorem X6_reference_line_without_tab_raises (eol : newline)
    (header : string) (rows : list string) (r : string)
    (gene_list : list string) :
  one_line header -> Forall one_line rows ->
  In r rows -> no_char TAB r ->
  gene_list <> [] ->
  exists e,
    gene_annotation (text_file eol header rows true) gene_list = inl e.
Proof.
  intros Hh Hrows Hin Hr Hne. unfold gene_annotation.
  rewrite (read_table_text_file_nl eol TAB header rows Hh Hrows).
  destruct gene_list as [| gene gs]; [congruence |].
  unfold annotate. apply for_raises with (x := gene); [| now left].
  intros acc. apply for_raises with (x := [r]).
  - intros acc'. exists IndexError. reflexivity.
  - rewrite <- (split_no_sep TAB r Hr). now apply in_map.
Qed.

Lemma X6_reference_line_without_tab_raises_witness :
  exists e,
    gene_annotation
      (text_file Unix "Gene"
         [join TAB ["E1"; "ACTB"; "T-cells"; "2.5"]; ""]%string true)
      ["Gapdh"%string]
    = inl e.
Proof.
  apply (X6_reference_line_without_tab_raises Unix "Gene"
           [join TAB ["E1"; "ACTB"; "T-cells"; "2.5"]; ""]%string ""%string
           ["Gapdh"%string]).
  - split; reflexivity.
  - repeat constructor.
  - right. left. reflexivity.
  - reflexivity.
  - discriminate.
Defined.

(** ** The merger on its own *)

Lemma nth_map_strip_quotes (c : list string) (i : nat) :
  nth i (map strip_quotes c) EmptyString = strip_quotes (nth i c EmptyString).
Proof.
  change EmptyString with (strip_quotes EmptyString) at 1. apply map_nth.
Qed.

Lemma emit_merge_snd (line a : list string)
    (p : list MergedRow * list (list string)) :
  emit_merge line a = inr p ->
  snd p = if joins line a then [export_row line a] else [].
Proof.
  intros H. unfold joins, export_row.
  apply emit_merge_inr in H as (l7 & g0 & H7 & H0 & [(Hne & ->) | Hm]).
  - rewrite (nth_error_some_nth _ _ _ _ H7), (nth_error_some_nth _ _ _ _ H0).
    now destruct (String.eqb_spec l7 g0).
  - destruct Hm as (<- & l5 & l6 & g1 & g2 & x & H5 & H6 & H1 & H2 & _ & ->).
    rewrite (nth_error_some_nth _ _ _ _ H7), (nth_error_some_nth _ _ _ _ H0),
      (nth_error_some_nth _ _ _ _ H5), (nth_error_some_nth _ _ _ _ H6),
      (nth_error_some_nth _ _ _ _ H1), (nth_error_some_nth _ _ _ _ H2).
    now rewrite String.eqb_refl.
Qed.

Lemma collect_app2_snd {A X Y : Type} (f : A -> Exc (list X * list Y))
    (g : A -> list Y) (xs : list A) (out : list X * list Y) :
  (forall x p, In x xs -> f x = inr p -> snd p = g x) ->
  collect app2 ([], []) f xs = inr out -> snd out = flat_map g xs.
Proof.
  revert out; induction xs as [| y xs IH]; simpl; intros out H Hrun.
  - now injection Hrun as <-.
  - apply bind_inr in Hrun as (a & Ha & Hrun).
    apply bind_inr in Hrun as (b & Hb & Hrun).
    injection Hrun as <-. simpl. rewrite (H y a), (IH b); auto.
Qed.

Lemma merge_snd (genes_tissue_list genes_clusters : list (list string))
    (st : list MergedRow * list (list string)) :
  merge genes_tissue_list genes_clusters = inr st ->
  snd st = export_rows genes_tissue_list genes_clusters.
Proof.
  rewrite merge_collect. unfold export_rows. apply collect_app2_snd.
  intros c p _ Hp. cbv zeta. rewrite <- flat_map_filter_map.
  revert Hp. apply collect_app2_snd. intros a p' _. apply emit_merge_snd.
Qed.

Lemma collect_total {A S : Type} (op : S -> S -> S) (e : S)
    (f : A -> Exc S) (xs : list A) :
  (forall x, In x xs -> exists p, f x = inr p) ->
  exists out, collect op e f xs = inr out.
Proof.
  induction xs as [| y xs IH]; simpl; intros H; [now exists e |].
  destruct (H y) as (a & ->); [auto |].
  destruct IH as (b & ->); [auto |]. mred. eauto.
Qed.

Lemma nth_error_below {A : Type} (l : list A) (i j : nat) (a : A) :
  nth_error l j = Some a -> i <= j -> exists b, nth_error l i = Some b.
Proof.
  intros Hj Hij. destruct (nth_error l i) as [b |] eqn:E; [eauto |].
  apply nth_error_None in E.
  assert (nth_error l j <> None) as Hj' by congruence.
  apply nth_error_Some in Hj'. lia.
Qed.

(** A step of the merge loop is defined when the cluster row has a gene
    field and the AnnotationRow a gene and, if they are equal, an expression
    that parses. *)
Lemma emit_merge_defined (line a : list string) :
  (exists p, emit_merge line a = inr p) <->
  exists l7 g0,
    nth_error line 7 = Some l7 /\ nth_error a 0 = Some g0 /\
    (l7 = g0 ->
     exists g2 x, nth_error a 2 = Some g2 /\ float g2 = inr x).
Proof.
  split.
  - intros (p & H).
    apply emit_merge_inr in H as (l7 & g0 & H7 & H0 & [(Hne & _) | Hm]);
      exists l7, g0; (split; [exact H7 |]); (split; [exact H0 |]).
    + intros ->. now destruct Hne.
    + destruct Hm as (_ & l5 & l6 & g1 & g2 & x & _ & _ & _ & H2 & Hx & _).
      intros _. now exists g2, x.
  - intros (l7 & g0 & H7 & H0 & H).
    destruct (String.eqb_spec l7 g0) as [Heq | Hne].
    + destruct (H Heq) as (g2 & x & H2 & Hx).
      destruct (nth_error_below line 5 7 l7 H7) as (l5 & H5); [lia |].
      destruct (nth_error_below line 6 7 l7 H7) as (l6 & H6); [lia |].
      destruct (nth_error_below a 1 2 g2 H2) as (g1 & H1); [lia |].
      rewrite (emit_merge_total line a l5 l6 l7 g0 g1 g2 x); eauto.
    + unfold emit_merge, merge_gene, index. rewrite H7, H0. mred.
      destruct (String.eqb_spec l7 g0); [congruence | eauto].
Qed.

Lemma nth_error_strip_quotes_7 (c : list string) (l7 : string) :
  nth_error (map strip_quotes c) 7 = Some l7 <->
  8 <= List.length c /\ l7 = gene_of c.
Proof.
  split.
  - intros H.
    assert (nth_error (map strip_quotes c) 7 <> None) as Hlen by congruence.
    apply nth_error_Some in Hlen. rewrite length_map in Hlen.
    split; [lia |].
    rewrite (nth_error_map_lt strip_quotes c 7 EmptyString) in H by lia.
    now injection H.
  - intros (Hlen & ->). now apply nth_error_map_lt.
Qed.

(** X7. When [i_m_annotating] returns, the text it wrote is the records of
    the export rows in this order: cluster rows in the order given and, for
    one cluster row, the AnnotationRows whose gene is the quote-stripped
    field 7 of the row, in the order given; each export row is the stripped
    fields 6, 7, 5 of the cluster row, then the cell type and the
    expression of the AnnotationRow with its dots turned into commas. *)
Theorem X7_merge_writes_rows_in_cluster_then_annotation_order
    (genes_tissue_list genes_clusters : list (list string)) (text : string) :
  i_m_annotating genes_tissue_list genes_clusters = inr text ->
  text
  = writerows TAB
      (flat_map
         (fun c =>
            let line := map strip_quotes c in
            map (fun a =>
                   [nth 6 line EmptyString; nth 7 line EmptyString;
                    nth 5 line EmptyString; nth 1 a EmptyString;
                    replace DOT COMMA (nth 2 a EmptyString)])
              (filter (fun a => String.eqb (nth 7 line EmptyString)
                                  (nth 0 a EmptyString))
                 genes_tissue_list))
         genes_clusters).
Proof.
  unfold i_m_annotating. intros H.
  apply bind_inr in H as (st & Hst & H). injection H as <-.
  now rewrite (merge_snd _ _ _ Hst).
Qed.

Lemma X7_merge_writes_rows_in_cluster_then_annotation_order_witness :
  let annots := [["Actb"; "T-cells"; "2.5"]; ["Gapdh"; "B-cells"; "10"];
                 ["Actb"; "NK-cells"; "1.0"]]%string in
  let clusters := [["1"; "0"; "2"; "3"; "4"; "0.01"; "c0"; quoted "Gapdh"];
                   ["1"; "0"; "2"; "3"; "4"; "0.02"; "c1"; "Actb"]]%string in
  writerows TAB
    [["c0"; "Gapdh"; "0.01"; "B-cells"; "10"];
     ["c1"; "Actb"; "0.02"; "T-cells"; "2,5"];
     ["c1"; "Actb"; "0.02"; "NK-cells"; "1,0"]]%string
  = writerows TAB
      (flat_map
         (fun c =>
            let line := map strip_quotes c in
            map (fun a =>
                   [nth 6 line EmptyString; nth 7 line EmptyString;
                    nth 5 line EmptyString; nth 1 a EmptyString;
                    replace DOT COMMA (nth 2 a EmptyString)])
              (filter (fun a => String.eqb (nth 7 line EmptyString)
                                  (nth 0 a EmptyString))
                 annots))
         clusters).
Proof.
  intros annots clusters.
  apply (X7_merge_writes_rows_in_cluster_then_annotation_order
           annots clusters).
  vm_compute. reflexivity.
Defined.

(** X8. For AnnotationRows of ASCII fields, [i_m_annotating] returns
    exactly when, for every cluster row and every AnnotationRow, the cluster row has at least 8 fields, the
    AnnotationRow has a gene and, if that gene is the quote-stripped field 7
    of the cluster row, an expression (index 2) that parses as a float;
    otherwise it raises and writes nothing. *)
Theorem X8_merge_returns_iff_steps_are_defined
    (genes_tissue_list genes_clusters : list (list string)) :
  Forall (Forall is_ascii) genes_tissue_list ->
  (exists text, i_m_annotating genes_tissue_list genes_clusters = inr text)
  <->
  (forall c a,
     In c genes_clusters -> In a genes_tissue_list ->
     8 <= List.length c /\
     exists g0,
       nth_error a 0 = Some g0 /\
       (gene_of c = g0 ->
        exists g2 x, nth_error a 2 = Some g2 /\ float g2 = inr x)).
Proof.
  intros _. unfold i_m_annotating. rewrite merge_collect. split.
  - intros (text & H) c a Hc Ha.
    apply bind_inr in H as (st & Hst & _).
    destruct (collect_inr_each _ _ _ _ _ Hst c Hc) as (p & Hp).
    destruct (collect_inr_each _ _ _ _ _ Hp a Ha) as (p' & Hp').
    destruct (proj1 (emit_merge_defined _ _) (ex_intro _ p' Hp'))
      as (l7 & g0 & H7 & H0 & H).
    apply nth_error_strip_quotes_7 in H7 as (Hlen & ->).
    split; [exact Hlen |]. now exists g0.
  - intros H.
    destruct (collect_total app2 ([], [])
                (fun line =>
                   collect app2 ([], [])
                     (emit_merge (map strip_quotes line)) genes_tissue_list)
                genes_clusters) as (st & ->).
    + intros c Hc. apply collect_total. intros a Ha.
      destruct (H c a Hc Ha) as (Hlen & g0 & H0 & Hg).
      apply emit_merge_defined. exists (gene_of c), g0.
      split; [now apply nth_error_strip_quotes_7 |]. auto.
    + mred. eauto.
Qed.

Lemma X8_merge_returns_iff_steps_are_defined_witness :
  exists text,
    i_m_annotating
      [["Actb"; "T-cells"; "2.5"]; ["Gapdh"; "B-cells"]]%string
      [["1"; "0"; "2"; "3"; "4"; "0.02"; "c1"; quoted "Actb"]]%string
    = inr text.
Proof.
  apply (proj2 (X8_merge_returns_iff_steps_are_defined
                  [["Actb"; "T-cells"; "2.5"]; ["Gapdh"; "B-cells"]]%string
                  [["1"; "0"; "2"; "3"; "4"; "0.02"; "c1";
                    quoted "Actb"]]%string
                  ltac:(repeat constructor))).
  intros c a [<- | []] [<- | [<- | []]]; (split; [simpl; lia |]).
  - exists "Actb"%string. split; [reflexivity |]. intros _.
    exists "2.5"%string, (S754_finite false 5629499534213120 (-51)).
    split; reflexivity.
  - exists "Gapdh"%string. split; [reflexivity |]. discriminate.
Defined.

(** X9. Without AnnotationRows the cluster rows are never inspected:
    [i_m_annotating] writes an empty file whatever the cluster rows are,
    rows with fewer than 8 fields included; without cluster rows it writes
    an empty file whatever the AnnotationRows are. *)
Theorem X9_merge_of_nothing_writes_empty_file :
  (forall genes_clusters : list (list string),
     i_m_annotating [] genes_clusters = inr EmptyString) /\
  (forall genes_tissue_list : list (list string),
     i_m_annotating genes_tissue_list [] = inr EmptyString).
Proof.
  split; [| reflexivity].
  intros genes_clusters. unfold i_m_annotating, merge.
  assert (forall st : list MergedRow * list (list string),
            for_ genes_clusters
              (fun line st =>
                 let line := map strip_quotes line in
                 for_ [] (merge_gene line) st) st = inr st) as H.
  { induction genes_clusters as [| c cs IH]; intros st; [reflexivity |].
    cbn [for_]. mred. apply IH. }
  now rewrite H.
Qed.

(** ** The whole run *)

Lemma list_sum_flat_map {A B : Type} (n : B -> nat) (f : A -> list B)
    (l : list A) :
  list_sum (map n (flat_map f l))
  = list_sum (map (fun x => list_sum (map n (f x))) l).
Proof.
  induction l as [| x l IH]; simpl; [reflexivity |].
  now rewrite map_app, list_sum_app, IH.
Qed.

Lemma list_sum_count_dep (q : string -> nat) (k : string) (l : list string) :
  list_sum (map (fun g => q g * (if string_dec k g then 1 else 0)) l)
  = count_occ string_dec l k * q k.
Proof.
  induction l as [| g l IH]; simpl; [reflexivity |].
  rewrite IH.
  destruct (string_dec k g) as [-> | Hne], (string_dec g g) as [_ | Hne'];
    try congruence; try lia.
  destruct (string_dec g k); [congruence | lia].
Qed.

Lemma in_annotations (table : list (list string)) (genes : list string)
    (a : list string) :
  In a (flat_map (rows_for table) genes) <->
  exists g line,
    In g genes /\ In line table /\ passes g line = true /\
    a = annotation_row g line.
Proof.
  rewrite in_flat_map. split.
  - intros (g & Hg & Ha). apply in_rows_for in Ha as (line & Hl & Hp & ->).
    exists g, line. auto.
  - intros (g & line & Hg & Hl & Hp & ->). exists g. split; [exact Hg |].
    apply in_rows_for. eauto.
Qed.

(** After an extraction and an annotation that returned, the merge returns,
    with as many rows for a cluster row as its gene has occurrences in the
    gene list times passing rows in the table. *)
Lemma merge_after_annotation (cluster_file annotation_file : string)
    (genes : list string) (content annots : list (list string)) :
  let table := read_table TAB annotation_file in
  extract_from_seurat cluster_file = inr (genes, content) ->
  gene_annotation annotation_file genes = inr annots ->
  exists final_list final_list_excel_version,
    merge annots content = inr (final_list, final_list_excel_version) /\
    List.length final_list
    = list_sum
        (map (fun c =>
                count_occ string_dec genes (gene_of c)
                * List.length (filter (passes (gene_of c)) table))
           content) /\
    List.length final_list_excel_version = List.length final_list.
Proof.
  intros table Hext Hann.
  apply extract_from_seurat_inr in Hext as (_ & Hlen & _).
  unfold gene_annotation in Hann. fold table in Hann.
  apply annotate_inr in Hann. subst annots.
  set (annots := flat_map (rows_for table) genes).
  destruct (collect_app2_length
              (fun line =>
                 collect app2 ([], []) (emit_merge (map strip_quotes line))
                   annots)
              (fun c =>
                 count_occ string_dec genes (gene_of c)
                 * List.length (filter (passes (gene_of c)) table))
              content) as ((fl & fx) & Hrun & Hfl & Hfx).
  { intros c Hc. rewrite Forall_forall in Hlen. specialize (Hlen c Hc).
    destruct (collect_app2_length
                (emit_merge (map strip_quotes c))
                (fun a =>
                   if string_dec (gene_of c) (nth 0 a EmptyString)
                   then 1 else 0)
                annots) as (p & Hp & Hp1 & Hp2).
    - intros a Ha. apply in_annotations in Ha as (g & line & _ & _ & Hp & ->).
      apply passes_true in Hp as (l3 & x & _ & H3 & Hx & _).
      rewrite (emit_merge_total (map strip_quotes c) (annotation_row g line)
                 (strip_quotes (nth 5 c EmptyString))
                 (strip_quotes (nth 6 c EmptyString))
                 (gene_of c) g (nth 2 line EmptyString) l3 x);
        try (apply nth_error_map_lt; lia); try assumption;
        try reflexivity.
      + eexists. split; [reflexivity |]. cbn [annotation_row nth].
        destruct (String.eqb_spec (gene_of c) g),
          (string_dec (gene_of c) g); try congruence; auto.
      + cbn. now rewrite (nth_error_some_nth _ _ _ _ H3).
    - exists p. split; [exact Hp |].
      assert (list_sum
                (map (fun a =>
                        if string_dec (gene_of c) (nth 0 a EmptyString)
                        then 1 else 0) annots)
              = count_occ string_dec genes (gene_of c)
                * List.length (filter (passes (gene_of c)) table)) as E.
      { unfold annots. rewrite list_sum_flat_map.
        rewrite <- (list_sum_count_dep
                      (fun g => List.length (filter (passes g) table))).
        f_equal. apply map_ext. intros g. unfold rows_for.
        rewrite map_map. cbn [annotation_row nth].
        now rewrite list_sum_map_const. }
      rewrite Hp1, Hp2, E. auto. }
  exists fl, fx. cbn [fst snd] in Hfl, Hfx.
  rewrite merge_collect. split; [exact Hrun |]. split; congruence.
Qed.

(** X10. The merge stage never raises in a run: whenever the extractor and
    the annotator have returned, [i_m_annotating] returns and the run
    writes its file.  The rows it gets have at least 8 fields, and every
    expression it parses already parsed in the annotator. *)
Theorem X10_merge_never_raises_in_a_run (cluster_file annotation_file : string)
    (genes : list string) (content genes_tissues : list (list string)) :
  extract_from_seurat cluster_file = inr (genes, content) ->
  gene_annotation annotation_file genes = inr genes_tissues ->
  exists text,
    i_m_annotating genes_tissues content = inr text /\
    main cluster_file annotation_file = inr text.
Proof.
  intros Hext Hann.
  destruct (merge_after_annotation _ _ _ _ _ Hext Hann)
    as (fl & fx & Hmerge & _).
  exists (writerows TAB fx). unfold main, i_m_annotating.
  rewrite Hext. mred. rewrite Hann. mred. rewrite Hmerge. mred.
  split; reflexivity.
Qed.

Lemma X10_merge_never_raises_in_a_run_witness :
  let cluster_file :=
    text_file Unix "h"
      [join COMMA ["1"; "c1"; "x"; "y"; "0.01"; "0.01"; quoted "clusterA";
                   quoted "BRCA1"]]%string true in
  let annotation_file :=
    text_file Unix "id" [join TAB ["x"; "BRCA1"; "T-cell"; "2.5"]]%string
      true in
  exists text,
    i_m_annotating [["BRCA1"; "T-cell"; "2.5"]%string]
      (read_table COMMA cluster_file) = inr text /\
    main cluster_file annotation_file = inr text.
Proof.
  intros cluster_file annotation_file.
  apply (X10_merge_never_raises_in_a_run cluster_file annotation_file
           ["BRCA1"%string]); vm_compute; reflexivity.
Defined.

(** X11. In a run on ASCII files that completes, the number of output rows
    is the sum, over the cluster rows, of the number of cluster rows that
    carry the same quote-stripped gene times the number of reference rows
    that pass the test for that gene; the two lists the merge builds have
    the same length. *)
Theorem X11_number_of_merged_rows (cluster_file annotation_file : string)
    (final_list : list MergedRow)
    (final_list_excel_version : list (list string)) :
  is_ascii cluster_file -> is_ascii annotation_file ->
  run cluster_file annotation_file
  = inr (final_list, final_list_excel_version) ->
  let content := read_table COMMA cluster_file in
  let table := read_table TAB annotation_file in
  List.length final_list
  = list_sum
      (map (fun c =>
              count_occ string_dec (map gene_of content) (gene_of c)
              * List.length (filter (passes (gene_of c)) table))
         content) /\
  List.length final_list_excel_version = List.length final_list.
Proof.
  intros _ _ H content table. unfold run in H.
  apply bind_inr in H as ((genes & content') & Hext & H).
  apply bind_inr in H as (annots & Hann & Hmerge). cbn [fst snd] in *.
  destruct (merge_after_annotation _ _ _ _ _ Hext Hann)
    as (fl & fx & Hmerge' & Hfl & Hfx).
  rewrite Hmerge in Hmerge'. injection Hmerge' as <- <-.
  apply extract_from_seurat_inr in Hext as (-> & _ & ->).
  split; assumption.
Qed.

Lemma X11_number_of_merged_rows_witness :
  let row c g :=
    join COMMA ["1"; "0"; "2.1"; "0.9"; "0.1"; "0.01"; quoted c;
                quoted g]%string in
  let cluster_file :=
    text_file Unix "h"
      [row "c0" "Actb"; row "c0" "Tp53"; row "c1" "Actb"]%string true in
  let annotation_file :=
    text_file Unix "Gene"
      [join TAB ["E1"; "ACTB"; "T-cells"; "2.5"];
       join TAB ["E1"; "ACTB"; "B-cells"; "0.2"];
       join TAB ["E2"; "TP53"; "T-cells"; "8.0"]]%string true in
  List.length
    [mkMergedRow "c0" "Actb" "0.01" "T-cells"
       (S754_finite false 5629499534213120 (-51));
     mkMergedRow "c0" "Actb" "0.01" "T-cells"
       (S754_finite false 5629499534213120 (-51));
     mkMergedRow "c0" "Tp53" "0.01" "T-cells"
       (S754_finite false 4503599627370496 (-49));
     mkMergedRow "c1" "Actb" "0.01" "T-cells"
       (S754_finite false 5629499534213120 (-51));
     mkMergedRow "c1" "Actb" "0.01" "T-cells"
       (S754_finite false 5629499534213120 (-51))]%string
  = list_sum
      (map (fun c =>
              count_occ string_dec
                (map gene_of (read_table COMMA cluster_file)) (gene_of c)
              * List.length
                  (filter (passes (gene_of c))
                     (read_table TAB annotation_file)))
         (read_table COMMA cluster_file)).
Proof.
  intros row cluster_file annotation_file.
  refine (proj1 (X11_number_of_merged_rows cluster_file annotation_file _
                   [["c0"; "Actb"; "0.01"; "T-cells"; "2,5"];
                    ["c0"; "Actb"; "0.01"; "T-cells"; "2,5"];
                    ["c0"; "Tp53"; "0.01"; "T-cells"; "8,0"];
                    ["c1"; "Actb"; "0.01"; "T-cells"; "2,5"];
                    ["c1"; "Actb"; "0.01"; "T-cells"; "2,5"]]%string
                   ltac:(reflexivity) ltac:(reflexivity) _)).
  vm_compute. reflexivity.
Defined.

(** X12. As a set, whatever the number of times each is written, the rows
    written by a run on ASCII files that completes are exactly the pairs of
    a cluster row and a reference row such that the gene field of the
    reference row is the upper-cased, quote-stripped gene of the cluster
    row and its expression parses to a float that is at least 1.0; the row
    of such a pair is the stripped cluster id, gene and p-value of the
    cluster row, then the cell type and the expression of the reference
    row with its dots turned into commas.  Nothing else is written, and no
    such pair is left out. *)
Theorem X12_written_rows_are_the_matching_pairs
    (cluster_file annotation_file : string) (final_list : list MergedRow)
    (final_list_excel_version : list (list string)) :
  is_ascii cluster_file -> is_ascii annotation_file ->
  run cluster_file annotation_file
  = inr (final_list, final_list_excel_version) ->
  forall row : list string,
    In row final_list_excel_version <->
    exists (c line : list string) (l3 : string) (x : spec_float),
      In c (read_table COMMA cluster_file) /\
      In line (read_table TAB annotation_file) /\
      nth_error line 1 = Some (upper (strip_quotes (nth 7 c EmptyString))) /\
      nth_error line 3 = Some l3 /\
      float l3 = inr x /\ float_ge x one = true /\
      row = [strip_quotes (nth 6 c EmptyString);
             strip_quotes (nth 7 c EmptyString);
             strip_quotes (nth 5 c EmptyString);
             nth 2 line EmptyString; replace DOT COMMA l3].
Proof.
  intros _ _ H row. unfold run in H.
  apply bind_inr in H as ((genes & content) & Hext & H).
  apply bind_inr in H as (annots & Hann & Hmerge). cbn [fst snd] in *.
  apply merge_snd in Hmerge. cbn [snd] in Hmerge. subst final_list_excel_version.
  apply extract_from_seurat_inr in Hext as (-> & _ & ->).
  unfold gene_annotation in Hann. apply annotate_inr in Hann. subst annots.
  set (content := read_table COMMA cluster_file).
  set (table := read_table TAB annotation_file).
  unfold export_rows. rewrite in_flat_map. split.
  - intros (c & Hc & Hrow). cbv zeta in Hrow.
    apply in_map_iff in Hrow as (a & <- & Ha).
    apply filter_In in Ha as (Ha & Hj).
    apply in_annotations in Ha as (g & line & _ & Hl & Hp & ->).
    unfold joins in Hj. rewrite nth_map_strip_quotes in Hj.
    cbn [annotation_row nth] in Hj. apply String.eqb_eq in Hj. subst g.
    apply passes_true in Hp as (l3 & x & H1 & H3 & Hx & Hge).
    exists c, line, l3, x. repeat (split; [assumption |]).
    unfold export_row. rewrite !nth_map_strip_quotes.
    cbn [annotation_row nth].
    now rewrite (nth_error_some_nth _ _ _ _ H3).
  - intros (c & line & l3 & x & Hc & Hl & H1 & H3 & Hx & Hge & ->).
    exists c. split; [exact Hc |]. cbv zeta. apply in_map_iff.
    exists (annotation_row (gene_of c) line). split.
    + unfold export_row. rewrite !nth_map_strip_quotes.
      cbn [annotation_row nth].
      now rewrite (nth_error_some_nth _ _ _ _ H3).
    + apply filter_In. split.
      * apply in_annotations. exists (gene_of c), line.
        split; [now apply in_map |]. split; [exact Hl |].
        split; [| reflexivity]. apply passes_true. exists l3, x. auto.
      * unfold joins. rewrite nth_map_strip_quotes.
        cbn [annotation_row nth]. apply String.eqb_refl.
Qed.

Lemma X12_written_rows_are_the_matching_pairs_witness :
  let c := ["1"; "c1"; "x"; "y"; "0.01"; "0.01"; quoted "clusterA";
            quoted "Brca1"]%string in
  let cluster_file := text_file Unix "h" [join COMMA c] true in
  let annotation_file :=
    text_file Unix "id" [join TAB ["x"; "BRCA1"; "T-cell"; "2.5"]]%string
      true in
  In ["clusterA"; "Brca1"; "0.01"; "T-cell"; "2,5"]%string
    [["clusterA"; "Brca1"; "0.01"; "T-cell"; "2,5"]%string].
Proof.
  intros c cluster_file annotation_file.
  apply (proj2 (X12_written_rows_are_the_matching_pairs
                  cluster_file annotation_file
                  [mkMergedRow "clusterA" "Brca1" "0.01" "T-cell"
                     (S754_finite false 5629499534213120 (-51))]
                  [["clusterA"; "Brca1"; "0.01"; "T-cell"; "2,5"]%string]
                  ltac:(reflexivity) ltac:(reflexivity)
                  ltac:(vm_compute; reflexivity)
                  ["clusterA"; "Brca1"; "0.01"; "T-cell"; "2,5"]%string)).
  exists c, ["x"; "BRCA1"; "T-cell"; "2.5"]%string, "2.5"%string,
    (S754_finite false 5629499534213120 (-51)).
  repeat split; try (vm_compute; reflexivity); left; reflexivity.
Defined.

(** ** The decimal comma *)

Section Comma.
Local Open Scope string_scope.

(** [c] occurs in [s]. *)
Let has (c : ascii) (s : string) : Prop := existsb_char (Ascii.eqb c) s = true.

Lemma has_cons (c x : ascii) (s : string) :
  has c (String x s) <-> x = c \/ has c s.
Proof.
  unfold has. cbn [existsb_char]. rewrite orb_true_iff, Ascii.eqb_eq.
  split; intros [H | H]; auto.
Qed.

Lemma has_nonempty (c : ascii) (s : string) : has c s -> is_empty s = false.
Proof. destruct s; [discriminate | reflexivity]. Qed.

Lemma has_or_no_char (c : ascii) (s : string) : has c s \/ no_char c s.
Proof.
  unfold has, no_char. destruct (existsb_char (Ascii.eqb c) s); auto.
Qed.

Lemma has_map_chars (f : ascii -> ascii) (c : ascii) (s : string) :
  f c = c -> has c s -> has c (map_chars f s).
Proof.
  intros Hf. induction s as [| x s IH]; [discriminate |].
  cbn [map_chars]. rewrite !has_cons. intros [-> | H]; auto.
Qed.

Lemma has_remove_underscores (prev : ascii) (s t : string) :
  remove_underscores prev s = Some t -> has COMMA s -> has COMMA t.
Proof.
  revert prev t; induction s as [| c s IH]; intros prev t; [discriminate |].
  cbn [remove_underscores]. rewrite has_cons.
  destruct (Ascii.eqb_spec c "_") as [-> | Hc].
  - destruct (is_digit prev); [| discriminate].
    intros H [Hx | Hs]; [discriminate | eauto].
  - destruct (Ascii.eqb prev "_" && negb (is_digit c)); [discriminate |].
    destruct (remove_underscores c s) as [t' |] eqn:E; [| discriminate].
    intros [= <-] Hs. rewrite has_cons. destruct Hs; eauto.
Qed.

Lemma has_lstrip_space (s : string) :
  has COMMA s -> has COMMA (lstrip is_space s).
Proof.
  induction s as [| c s IH]; [discriminate |].
  cbn [lstrip]. destruct (is_space c) eqn:E; [| auto].
  rewrite has_cons. intros [-> | H]; [discriminate | auto].
Qed.

Lemma has_rstrip_space (s : string) :
  has COMMA s -> has COMMA (rstrip is_space s).
Proof.
  induction s as [| c s IH]; [discriminate |].
  cbn [rstrip]. rewrite has_cons. intros [-> | H].
  - apply has_cons. now left.
  - rewrite (has_nonempty _ _ (IH H)), andb_false_r.
    apply has_cons. auto.
Qed.

Lemma take_sign_inv (s : string) :
  snd (take_sign s) = s \/
  exists c, c <> COMMA /\ s = String c (snd (take_sign s)).
Proof.
  destruct s as [| c r]; [now left |].
  destruct (Ascii.eqb_spec c "-") as [-> | H1];
    [right; exists "-"%char; split; [discriminate | reflexivity] |].
  destruct (Ascii.eqb_spec c "+") as [-> | H2];
    [right; exists "+"%char; split; [discriminate | reflexivity] |].
  left. destruct c as [[] [] [] [] [] [] [] []]; try reflexivity;
    congruence.
Qed.

Lemma has_take_sign (s : string) :
  has COMMA s -> has COMMA (snd (take_sign s)).
Proof.
  destruct (take_sign_inv s) as [-> | (c & Hc & E)]; [auto |].
  rewrite E at 1. rewrite has_cons. intros [-> | H]; [congruence | exact H].
Qed.

Lemma has_take_digits (s : string) (acc : N) (cnt : nat) :
  has COMMA s -> has COMMA (snd (take_digits acc cnt s)).
Proof.
  revert acc cnt; induction s as [| c s IH]; intros acc cnt; [discriminate |].
  cbn [take_digits]. destruct (is_digit c) eqn:E; [| auto].
  rewrite has_cons. intros [-> | H]; [discriminate | auto].
Qed.

Lemma parse_exponent_comma (s : string) :
  has COMMA s -> parse_exponent s = None.
Proof.
  destruct s as [| c r]; [discriminate |].
  cbn [parse_exponent]. rewrite has_cons.
  destruct (Ascii.eqb c "e" || Ascii.eqb c "E") eqn:E; [| reflexivity].
  intros [-> | H]; [discriminate |].
  pose proof (has_take_sign r H) as H1.
  destruct (take_sign r) as (neg, r1). cbn [snd] in H1.
  pose proof (has_take_digits r1 0 0 H1) as H2.
  destruct (take_digits 0 0 r1) as ((x, n), r2). cbn [snd] in H2.
  destruct n; [reflexivity |]. destruct r2; [discriminate | reflexivity].
Qed.

Lemma parse_number_comma (s : string) :
  has COMMA s -> parse_number s = None.
Proof.
  intros H. unfold parse_number.
  pose proof (has_take_digits s 0 0 H) as H1.
  destruct (take_digits 0 0 s) as ((m1, n1), r1). cbn [snd] in H1.
  destruct r1 as [| c r]; [discriminate |].
  destruct (Ascii.eqb_spec c DOT) as [-> | Hc].
  - apply has_cons in H1 as [H1 | H1]; [discriminate |].
    pose proof (has_take_digits r m1 0 H1) as H2.
    destruct (take_digits m1 0 r) as ((m, n2), r2). cbn [snd] in H2.
    rewrite (parse_exponent_comma r2 H2). now destruct (n1 + n2)%nat.
  - rewrite (parse_exponent_comma _ H1). now destruct (n1 + 0)%nat.
Qed.

Lemma strtod_comma (s : string) : has COMMA s -> strtod s = None.
Proof.
  intros H. unfold strtod.
  pose proof (has_take_sign s H) as H1.
  destruct (take_sign s) as (neg, r). cbn [snd] in H1.
  rewrite (parse_number_comma r H1).
  pose proof (has_map_chars lower_char COMMA r eq_refl H1) as H2.
  fold (lower r) in H2.
  destruct (String.eqb_spec (lower r) "inf") as [E | _];
    [rewrite E in H2; discriminate |].
  destruct (String.eqb_spec (lower r) "infinity") as [E | _];
    [rewrite E in H2; discriminate |].
  destruct (String.eqb_spec (lower r) "nan") as [E | _];
    [rewrite E in H2; discriminate |].
  reflexivity.
Qed.

(** No string with a comma is a float literal. *)
Lemma float_comma (s : string) : has COMMA s -> float s = inl ValueError.
Proof.
  intros H. unfold float.
  destruct (remove_underscores "000" s) as [t |] eqn:E; [| reflexivity].
  pose proof (has_remove_underscores _ _ _ E H) as Ht.
  rewrite strtod_comma; [reflexivity |].
  unfold strip_set. now apply has_rstrip_space, has_lstrip_space.
Qed.

Lemma replace_dot_no_dot (s : string) : no_char DOT (replace DOT COMMA s).
Proof.
  induction s as [| c s IH]; [reflexivity |].
  unfold replace in *. cbn [map_chars]. apply no_char_cons. split; [| exact IH].
  destruct (Ascii.eqb_spec c DOT) as [-> | Hc]; [reflexivity |].
  apply Ascii.eqb_neq. congruence.
Qed.

Lemma replace_dot_id (s : string) :
  no_char DOT s -> replace DOT COMMA s = s.
Proof.
  induction s as [| c s IH]; [reflexivity |].
  intros H. apply no_char_cons in H as (Hc & Hs).
  unfold replace in *. cbn [map_chars].
  rewrite Ascii.eqb_sym, Hc, (IH Hs). reflexivity.
Qed.

Lemma replace_dot_has_comma (s : string) :
  has DOT s -> has COMMA (replace DOT COMMA s).
Proof.
  induction s as [| c s IH]; [discriminate |].
  unfold replace in *. cbn [map_chars]. rewrite !has_cons.
  intros [-> | H]; [now left | auto].
Qed.

(** X13. Of the expression column that a returning merge builds: the field
    comes from the expression of an AnnotationRow and never holds a decimal
    point; an expression without a decimal point is written as it is; an
    expression with a decimal point is written as a string that [float]
    rejects, so the column cannot be read back as the floats that passed
    the threshold. *)
Theorem X13_exported_expression_has_decimal_comma
    (genes_tissue_list genes_clusters : list (list string))
    (final_list : list MergedRow)
    (final_list_excel_version : list (list string)) :
  merge genes_tissue_list genes_clusters
  = inr (final_list, final_list_excel_version) ->
  Forall2
    (fun r row =>
       exists a e,
         In a genes_tissue_list /\ nth_error a 2 = Some e /\
         float e = inr (nTPM r) /\
         nth_error row 4 = Some (replace DOT COMMA e) /\
         no_char DOT (replace DOT COMMA e) /\
         (no_char DOT e -> replace DOT COMMA e = e) /\
         (~ no_char DOT e -> float (replace DOT COMMA e) = inl ValueError))
    final_list final_list_excel_version.
Proof.
  rewrite merge_collect. intros H.
  change final_list with (fst (final_list, final_list_excel_version)).
  change final_list_excel_version
    with (snd (final_list, final_list_excel_version)) at 2.
  revert H. apply collect_app2_Forall2. intros c p _.
  apply collect_app2_Forall2. intros a p' Ha Hp'.
  apply emit_merge_inr in Hp' as (l7 & g0 & _ & _ & [(_ & ->) | Hm]);
    [constructor |].
  destruct Hm as (_ & l5 & l6 & g1 & g2 & x & _ & _ & _ & H2 & Hx & ->).
  repeat constructor. exists a, g2. cbn [nTPM nth_error].
  repeat (split; [first [assumption | reflexivity] |]).
  split; [apply replace_dot_no_dot |]. split; [apply replace_dot_id |].
  intros Hdot. apply float_comma, replace_dot_has_comma.
  destruct (has_or_no_char DOT g2); [assumption | contradiction].
Qed.

Lemma X13_exported_expression_has_decimal_comma_witness :
  Forall2
    (fun r row =>
       exists a e,
         In a [["Actb"; "T-cells"; "2.5"]%string] /\
         nth_error a 2 = Some e /\
         float e = inr (nTPM r) /\
         nth_error row 4 = Some (replace DOT COMMA e) /\
         no_char DOT (replace DOT COMMA e) /\
         (no_char DOT e -> replace DOT COMMA e = e) /\
         (~ no_char DOT e -> float (replace DOT COMMA e) = inl ValueError))
    [mkMergedRow "c1" "Actb" "0.02" "T-cells"
       (S754_finite false 5629499534213120 (-51))]
    [["c1"; "Actb"; "0.02"; "T-cells"; "2,5"]%string].
Proof.
  apply (X13_exported_expression_has_decimal_comma
           [["Actb"; "T-cells"; "2.5"]%string]
           [["1"; "0"; "2"; "3"; "4"; "0.02"; "c1"; "Actb"]%string]).
  vm_compute. reflexivity.
Defined.

End Comma.

(** ** The written text *)

Section Written.
Local Open Scope string_scope.

Lemma plain_replace_dot (s : string) : plain s -> plain (replace DOT COMMA s).
Proof.
  unfold plain, replace. induction s as [| c s IH]; [reflexivity |].
  cbn [map_chars existsb_char]. rewrite !orb_false_iff.
  intros (Hc & Hs). split; [| auto].
  destruct (Ascii.eqb_spec c DOT); [reflexivity | exact Hc].
Qed.

Lemma csv_field_plain (field : string) :
  plain field -> csv_field TAB field = field.
Proof. unfold plain, csv_field. now intros ->. Qed.

Lemma csv_record_plain (row : list string) :
  Forall plain row -> 2 <= List.length row ->
  csv_record TAB row = join TAB row ++ String CR (String LF EmptyString).
Proof.
  intros Hp Hlen. unfold csv_record.
  rewrite (map_ext_in (csv_field TAB) (fun f => f)), map_id.
  - destruct row as [| f [| g row]]; simpl in Hlen; try lia; reflexivity.
  - intros f Hf. apply csv_field_plain.
    rewrite Forall_forall in Hp. auto.
Qed.

Lemma plain_nth (l : list string) (i : nat) :
  Forall plain l -> plain (nth i l EmptyString).
Proof.
  intros H. destruct (nth_in_or_default i l EmptyString) as [Hin | ->].
  - rewrite Forall_forall in H. auto.
  - reflexivity.
Qed.

(** X14. When no field of the AnnotationRows and no quote-stripped field of
    the cluster rows holds a tab, a double quote, CR or LF, the file that
    [i_m_annotating] writes is plain: one record per export row, its five
    fields separated by tabs, nothing quoted, each record ended by CR LF. *)
Theorem X14_plain_fields_are_written_unquoted
    (genes_tissue_list genes_clusters : list (list string)) (text : string) :
  i_m_annotating genes_tissue_list genes_clusters = inr text ->
  Forall (Forall plain) genes_tissue_list ->
  Forall (fun c => Forall plain (map strip_quotes c)) genes_clusters ->
  text
  = String.concat EmptyString
      (map (fun row => join TAB row ++ String CR (String LF EmptyString))
         (export_rows genes_tissue_list genes_clusters)).
Proof.
  unfold i_m_annotating. intros H Ha Hc.
  apply bind_inr in H as (st & Hst & H). injection H as <-.
  rewrite (merge_snd _ _ _ Hst). unfold writerows. f_equal.
  apply map_ext_in. intros row Hrow. unfold export_rows in Hrow.
  apply in_flat_map in Hrow as (c & Hin & Hrow). cbv zeta in Hrow.
  apply in_map_iff in Hrow as (a & <- & Hf).
  apply filter_In in Hf as (Hf & _).
  rewrite Forall_forall in Ha, Hc. specialize (Ha a Hf). specialize (Hc c Hin).
  apply csv_record_plain; [| simpl; lia].
  unfold export_row.
  repeat (constructor; [first [apply plain_replace_dot | idtac];
                        now apply plain_nth |]).
  constructor.
Qed.

Lemma X14_plain_fields_are_written_unquoted_witness :
  (join TAB ["c1"; "Actb"; "0.02"; "T-cells"; "2,5"]
   ++ String CR (String LF EmptyString))
  = String.concat EmptyString
      (map (fun row => join TAB row ++ String CR (String LF EmptyString))
         (export_rows [["Actb"; "T-cells"; "2.5"]]
            [["1"; "0"; "2"; "3"; "4"; "0.02"; "c1"; quoted "Actb"]])).
Proof.
  apply (X14_plain_fields_are_written_unquoted
           [["Actb"; "T-cells"; "2.5"]]
           [["1"; "0"; "2"; "3"; "4"; "0.02"; "c1"; quoted "Actb"]]).
  - vm_compute. reflexivity.
  - repeat constructor.
  - repeat constructor.
Defined.

End Written.

(** ** Line endings and letter case of the inputs *)

(** X15. The run does not depend on the line endings of its two input
    files, nor on whether their last line is ended: for files made of a
    header and non-empty rows, any two conventions give the same result,
    output text or exception. *)
Theorem X15_run_is_independent_of_line_endings
    (eol1 eol2 eol1' eol2' : newline) (nl1 nl2 nl1' nl2' : bool)
    (header ref_header : string) (rows ref_rows : list string) :
  one_line header ->
  Forall (fun r => one_line r /\ r <> EmptyString) rows ->
  one_line ref_header ->
  Forall (fun r => one_line r /\ r <> EmptyString) ref_rows ->
  main (text_file eol1 header rows nl1) (text_file eol1' ref_header ref_rows nl1')
  = main (text_file eol2 header rows nl2)
      (text_file eol2' ref_header ref_rows nl2').
Proof.
  intros Hh Hrows Hr Hrrows.
  unfold main, extract_from_seurat, gene_annotation.
  now rewrite !read_table_text_file.
Qed.

Lemma X15_run_is_independent_of_line_endings_witness :
  let row := join COMMA ["1"; "c1"; "x"; "y"; "0.01"; "0.01";
                         quoted "clusterA"; quoted "BRCA1"]%string in
  let ref := join TAB ["x"; "BRCA1"; "T-cell"; "2.5"]%string in
  main (text_file Dos "h" [row] true) (text_file OldMac "id" [ref] false)
  = main (text_file Unix "h" [row] false) (text_file Unix "id" [ref] true).
Proof.
  intros row ref.
  apply (X15_run_is_independent_of_line_endings
           Dos Unix OldMac Unix true false false true "h" "id" [row] [ref]).
  - split; reflexivity.
  - repeat constructor; discriminate.
  - split; reflexivity.
  - repeat constructor; discriminate.
Defined.

Lemma upper_char_idempotent (c : ascii) : upper_char (upper_char c) = upper_char c.
Proof. destruct c as [[] [] [] [] [] [] [] []]; reflexivity. Qed.

Lemma upper_idempotent (s : string) : upper (upper s) = upper s.
Proof.
  unfold upper. induction s as [| c s IH]; [reflexivity |].
  cbn [map_chars]. now rewrite upper_char_idempotent, IH.
Qed.

Lemma emit_relabel (g1 g2 : string) (line : list string) :
  upper g1 = upper g2 ->
  emit g2 line
  = (o <- emit g1 line ;; ret (map (fun r => g2 :: tl r) o)).
Proof.
  intros H. unfold emit, annotate_line. rewrite <- H.
  destruct (qualifies (upper g1) line) as [e | [|]]; mred; try reflexivity.
  destruct (index line 2); mred; [reflexivity |].
  destruct (index line 3); mred; reflexivity.
Qed.

Lemma collect_emit_relabel (g1 g2 : string) (content : list (list string)) :
  upper g1 = upper g2 ->
  collect (@app _) [] (emit g2) content
  = (o <- collect (@app _) [] (emit g1) content ;;
     ret (map (fun r => g2 :: tl r) o)).
Proof.
  intros H. induction content as [| line content IH]; [reflexivity |].
  cbn [collect]. rewrite (emit_relabel g1 g2 line H), IH.
  destruct (emit g1 line) as [e | a]; mred; [reflexivity |].
  destruct (collect (@app _) [] (emit g1) content) as [e | b]; mred;
    [reflexivity |].
  now rewrite map_app.
Qed.

(** X16. The letter case of an input gene shows only in the gene field of
    its AnnotationRows: two genes with the same upper-cased symbol, such as
    a gene and its upper-cased form, match the same reference rows, raise
    the same exception if any, and get the same rows up to that first
    field. *)
Theorem X16_input_case_only_shows_in_gene_field (file : string) :
  (forall g1 g2 : string,
     upper g1 = upper g2 ->
     gene_annotation file [g2]
     = (o <- gene_annotation file [g1] ;;
        ret (map (fun r => g2 :: tl r) o))) /\
  (forall g : string,
     gene_annotation file [upper g]
     = (o <- gene_annotation file [g] ;;
        ret (map (fun r => upper g :: tl r) o))).
Proof.
  assert (forall g1 g2 : string,
            upper g1 = upper g2 ->
            gene_annotation file [g2]
            = (o <- gene_annotation file [g1] ;;
               ret (map (fun r => g2 :: tl r) o))) as H.
  { intros g1 g2 Hup. unfold gene_annotation. rewrite !annotate_collect.
    cbn [collect]. rewrite (collect_emit_relabel g1 g2 _ Hup).
    destruct (collect (@app _) [] (emit g1) (read_table TAB file));
      mred; [reflexivity |].
    now rewrite !app_nil_r. }
  split; [exact H |].
  intros g. apply H. symmetry. apply upper_idempotent.
Qed.

Lemma X16_input_case_only_shows_in_gene_field_witness :
  let file :=
    text_file Unix "id" [join TAB ["x"; "BRCA1"; "T-cell"; "2.5"]]%string
      true in
  gene_annotation file ["brCA1"%string]
  = (o <- gene_annotation file ["Brca1"%string] ;;
     ret (map (fun r => "brCA1"%string :: tl r) o)).
Proof.
  intros file.
  apply (proj1 (X16_input_case_only_shows_in_gene_field file)).
  reflexivity.
Defined.
